(** * The player of cabbages-and-kings: compositing and state machine

    A shallow embedding of [data/components/player.py]: the image
    resolver and compositor of the mixin [_ImageProcessing], the hit-flash
    generator, and the state machine of the class [Player].

    Python objects are embedded as follows.
    - The strings naming directions, equip slots and action states are
      enumerations.
    - Exceptions are an explicit error result; a function that cannot
      raise is a plain function.
    - Methods that mutate [self] take the player and return the new one.
    - pygame is an interface ([Pygame]) whose operations are left
      abstract: surfaces, blitting, palette conversion and key codes. *)

From Stdlib Require Import ZArith List Bool Lia QArith.
Import ListNotations.

Open Scope Z_scope.

(** ** Python exceptions *)

Inductive exn : Type :=
| TypeError
| KeyError
| IndexError
| AttributeError.

Inductive result (A : Type) : Type :=
| Ok (a : A)
| Raise (e : exn).

Arguments Ok {A} a.
Arguments Raise {A} e.

Definition bind {A B : Type} (c : result A) (k : A -> result B) : result B :=
  match c with
  | Ok a => k a
  | Raise e => Raise e
  end.

Notation "x <- c ;; k" := (bind c (fun x => k))
  (at level 61, c at next level, right associativity).

(** ** Enumerations *)

(** The keys of [DRAW_ORDER] and the values of the controls. *)
Inductive Direction : Type := Front | Back | Left | Right.

(** The keys of [Player.equipped]. *)
Inductive Slot : Type := Head | Body | Weapon | Armleg | Shield.

(** The values of [Player.action_state]: ["normal"] and ["attack"]. *)
Inductive ActionState : Type := Normal | Attack.

Definition Direction_eqb (a b : Direction) : bool :=
  match a, b with
  | Front, Front | Back, Back | Left, Left | Right, Right => true
  | _, _ => false
  end.

Definition Slot_eqb (a b : Slot) : bool :=
  match a, b with
  | Head, Head | Body, Body | Weapon, Weapon
  | Armleg, Armleg | Shield, Shield => true
  | _, _ => false
  end.

Definition ActionState_eqb (a b : ActionState) : bool :=
  match a, b with
  | Normal, Normal | Attack, Attack => true
  | _, _ => false
  end.

(** ** Python containers *)

(** [l[i]] on a list: a negative index counts from the end, an index out
    of range raises [IndexError]. *)
Definition getitem {A : Type} (l : list A) (i : Z) : result A :=
  let n := Z.of_nat (length l) in
  let j := if i <? 0 then i + n else i in
  if (0 <=? j) && (j <? n)
  then match nth_error l (Z.to_nat j) with
       | Some a => Ok a
       | None => Raise IndexError
       end
  else Raise IndexError.

(** A dict is kept as an association list with one pair for each key.
    [dict_find] is the lookup behind [k in d] and [d[k]]. *)
Fixpoint dict_find {K V : Type} (eqb : K -> K -> bool) (k : K)
  (d : list (K * V)) : option V :=
  match d with
  | [] => None
  | (k', v) :: d' => if eqb k k' then Some v else dict_find eqb k d'
  end.

(** [d[k]]: a missing key raises [KeyError]. *)
Definition dict_get {K V : Type} (eqb : K -> K -> bool) (k : K)
  (d : list (K * V)) : result V :=
  match dict_find eqb k d with
  | Some v => Ok v
  | None => Raise KeyError
  end.

(** [d[k] = v]: the value of a key already present is replaced. *)
Fixpoint dict_set {K V : Type} (eqb : K -> K -> bool) (k : K) (v : V)
  (d : list (K * V)) : list (K * V) :=
  match d with
  | [] => [(k, v)]
  | (k', v') :: d' =>
      if eqb k k' then (k, v) :: d' else (k', v') :: dict_set eqb k v d'
  end.

(** The truth value of a list. *)
Definition nonempty {A : Type} (l : list A) : bool :=
  match l with
  | [] => false
  | _ :: _ => true
  end.

(** [x in l]. *)
Definition contains (x : Direction) (l : list Direction) : bool :=
  existsb (Direction_eqb x) l.

(** [l.remove(x)], called only under [x in l]: the first occurrence goes. *)
Fixpoint list_remove (x : Direction) (l : list Direction) : list Direction :=
  match l with
  | [] => []
  | y :: l' => if Direction_eqb x y then l' else y :: list_remove x l'
  end.

(** The list with every occurrence of [x] filtered out, to compare
    [list_remove] with. *)
Definition without (x : Direction) (l : list Direction) : list Direction :=
  filter (fun y => negb (Direction_eqb x y)) l.

(** ** Colours *)

(** A [pygame.Color]: four channels, read and written by index. *)
Record Color : Type := mkColor {
  red : Z;
  green : Z;
  blue : Z;
  alpha : Z
}.

(** The colour a tuple [(r, g, b)] denotes. *)
Definition rgb (r g b : Z) : Color := mkColor r g b 255.

(** [color[index]]. *)
Definition channel (index : nat) (c : Color) : Z :=
  match index with
  | 0%nat => red c
  | 1%nat => green c
  | 2%nat => blue c
  | _ => alpha c
  end.

(** [color[index] = v]. *)
Definition set_channel (index : nat) (v : Z) (c : Color) : Color :=
  match index with
  | 0%nat => mkColor v (green c) (blue c) (alpha c)
  | 1%nat => mkColor (red c) v (blue c) (alpha c)
  | 2%nat => mkColor (red c) (green c) v (alpha c)
  | _ => mkColor (red c) (green c) (blue c) v
  end.

(** ** The pygame interface *)

(** What the module takes from pygame and from [prepare]: surfaces of
    the cell size with their operations, the colour key, and the four
    arrow-key codes. *)
Class Pygame : Type := {
  Surface : Type;
  (** [pg.Surface(prepare.CELL_SIZE)] *)
  Surface_new : Surface;
  (** [surface.convert()] *)
  convert : Surface -> Surface;
  (** [surface.convert(8)] *)
  convert8 : Surface -> Surface;
  (** [surface.fill(color)] *)
  fill : Color -> Surface -> Surface;
  (** [target.blit(source, (0,0))] *)
  blit : Surface -> Surface -> Surface;
  (** [surface.get_palette()] *)
  get_palette : Surface -> list Color;
  (** [surface.set_palette(palette)] *)
  set_palette : list Color -> Surface -> Surface;
  (** [surface.set_colorkey(color)] *)
  set_colorkey : Color -> Surface -> Surface;
  (** [prepare.COLOR_KEY] *)
  COLOR_KEY : Color;
  K_DOWN : Z;
  K_UP : Z;
  K_LEFT : Z;
  K_RIGHT : Z
}.

(** A surface of one pixel, to run the model on: the pixel's colour and
    the surface's colour key.  Blitting a pixel whose colour is its
    surface's key leaves the target as it is; the palette of the
    surface is the one colour it shows. *)
Record Pixel : Type := mkPixel {
  pixel_color : Color;
  pixel_key : option Color
}.

Definition Color_eqb (a b : Color) : bool :=
  (red a =? red b) && (green a =? green b)
  && (blue a =? blue b) && (alpha a =? alpha b).

Definition Pixel_blit (target source : Pixel) : Pixel :=
  match pixel_key source with
  | Some k =>
      if Color_eqb (pixel_color source) k then target
      else mkPixel (pixel_color source) (pixel_key target)
  | None => mkPixel (pixel_color source) (pixel_key target)
  end.

Definition one_pixel : Pygame := {|
  Surface := Pixel;
  Surface_new := mkPixel (rgb 0 0 0) None;
  convert := fun s => s;
  convert8 := fun s => s;
  fill := fun c s => mkPixel c (pixel_key s);
  blit := Pixel_blit;
  get_palette := fun s => [pixel_color s];
  set_palette := fun p s => mkPixel (hd (pixel_color s) p) (pixel_key s);
  set_colorkey := fun c s => mkPixel (pixel_color s) (Some c);
  COLOR_KEY := rgb 255 0 255;
  K_DOWN := 274;
  K_UP := 273;
  K_LEFT := 276;
  K_RIGHT := 275
|}.

(** ** Tables keyed by direction *)

(** Modelled from the spec: [prepare.DIRECTIONS] is not part of the
    source at hand; the directions are front, back, left and right.  A
    dict with one entry for each of them is a table of four entries. *)
Record DirTable (A : Type) : Type := mkDirTable {
  at_front : A;
  at_back : A;
  at_left : A;
  at_right : A
}.

Arguments mkDirTable {A}.
Arguments at_front {A}.
Arguments at_back {A}.
Arguments at_left {A}.
Arguments at_right {A}.

Definition dir_get {A : Type} (d : Direction) (t : DirTable A) : A :=
  match d with
  | Front => at_front t
  | Back => at_back t
  | Left => at_left t
  | Right => at_right t
  end.

Definition dir_set {A : Type} (d : Direction) (v : A) (t : DirTable A)
  : DirTable A :=
  match d with
  | Front => mkDirTable v (at_back t) (at_left t) (at_right t)
  | Back => mkDirTable (at_front t) v (at_left t) (at_right t)
  | Left => mkDirTable (at_front t) (at_back t) v (at_right t)
  | Right => mkDirTable (at_front t) (at_back t) (at_left t) v
  end.

Definition dir_map {A B : Type} (f : A -> B) (t : DirTable A) : DirTable B :=
  mkDirTable (f (at_front t)) (f (at_back t)) (f (at_left t)) (f (at_right t)).

(** The keys of an item's [images]: a direction, or
    ["right_with_shield"]. *)
Inductive ImageKey : Type :=
| Facing (d : Direction)
| RightWithShield.

Definition ImageKey_eqb (a b : ImageKey) : bool :=
  match a, b with
  | Facing d, Facing d' => Direction_eqb d d'
  | RightWithShield, RightWithShield => true
  | _, _ => false
  end.

Section Model.

Context `{Pygame}.

(** ** Equipped items *)

(** What [images] holds under a key: one surface, or a sequence of
    surfaces indexed by the frame. *)
Inductive ImageSet : Type :=
| Single (s : Surface)
| Frames (l : list Surface).

Definition ImageDict : Type := list (ImageKey * ImageSet).

(** The attribute [attack_images]: the string ["normal"], a dict of
    images, or a false value. *)
Inductive AttackImages : Type :=
| AttackNormal
| AttackSet (d : ImageDict)
| AttackNone.

(** An item of the equipment catalogue, as the player reads it. *)
Record Item : Type := mkItem {
  images : ImageDict;
  attack_images : AttackImages;
  attacking : bool
}.

Definition Equipped : Type := Slot -> option Item.

(** [equipped[part].images] and the like: [None] has no attributes. *)
Definition item_of (equipped : Equipped) (part : Slot) : result Item :=
  match equipped part with
  | Some item => Ok item
  | None => Raise AttributeError
  end.

Definition is_equipped (equipped : Equipped) (part : Slot) : bool :=
  match equipped part with
  | Some _ => true
  | None => false
  end.

(** ** The slot resolver *)

(** [try: return to_blit[frame] except TypeError: return to_blit].
    Subscripting a surface raises [TypeError], which is caught; an
    [IndexError] of a sequence is not. *)
Definition frame_of (to_blit : ImageSet) (frame : Z) : result Surface :=
  match to_blit with
  | Frames l => getitem l frame
  | Single s => Ok s
  end.

Definition images_get (k : ImageKey) (d : ImageDict) : result ImageSet :=
  dict_get ImageKey_eqb k d.

Definition get_part_image (equipped : Equipped) (direction : Direction)
  (part : Slot) (frame : Z) : result Surface :=
  let with_shield :=
    Slot_eqb part Armleg && Direction_eqb direction Right
    && is_equipped equipped Shield in
  item <- item_of equipped part ;;
  to_blit <- (if with_shield
              then images_get RightWithShield (images item)
              else images_get (Facing direction) (images item)) ;;
  frame_of to_blit frame.

(** The last five lines of [get_attack_part_image], with [piece] chosen. *)
Definition piece_image (piece : ImageDict) (direction : Direction)
  (frame : Z) : result (option Surface) :=
  to_blit <- images_get (Facing direction) piece ;;
  s <- frame_of to_blit frame ;;
  Ok (Some s).

(** An [attack_images] that is a dict counts as true unless it is
    empty. *)
Definition get_attack_part_image (equipped : Equipped)
  (direction : Direction) (part : Slot) (frame : Z)
  : result (option Surface) :=
  item <- item_of equipped part ;;
  match attack_images item with
  | AttackNormal => piece_image (images item) direction frame
  | AttackSet [] => Ok None
  | AttackSet piece => piece_image piece direction frame
  | AttackNone => Ok None
  end.

(** ** Animation clips *)

Definition STANDARD_ANIMATION_FPS : Q := 7 # 1.
Definition HIT_ANIMATION_FPS : Q := 20 # 1.

(** Modelled from the spec: the class [tools.Anim] is not part of the
    source at hand.  A clip is an ordered sequence of frames, a playback
    rate in frames per second, a loop count (finite, or unbounded:
    [None]), and its playback state: the current frame index, the
    repetitions completed and the done flag. *)
Record Anim : Type := mkAnim {
  frames : list Surface;
  fps : Q;
  loops : option nat;
  frame_index : nat;
  loop_count : nat;
  done : bool
}.

(** Modelled from the spec: [tools.Anim(frames, fps, loops)] starts at
    frame 0, not done; a clip built without [loops] loops without
    bound. *)
Definition Anim_new (frames : list Surface) (fps : Q) (loops : option nat)
  : Anim :=
  mkAnim frames fps loops 0 0 false.

Definition unbounded : option nat := None.

(** Modelled from the spec: [Anim.reset()] rewinds the clip to frame 0,
    restores the loop counter and clears the done flag. *)
Definition Anim_reset (a : Anim) : Anim :=
  mkAnim (frames a) (fps a) (loops a) 0 0 false.

(** Modelled from the spec: the passing of one frame period of a clip.
    A clip that is done stays as it is.  Otherwise the frame index moves
    on; past the last frame a repetition is complete, and a finite clip
    whose loop budget is then exhausted becomes done, while any other
    clip starts again at frame 0. *)
Definition Anim_advance (a : Anim) : Anim :=
  if done a then a
  else if (S (frame_index a) <? length (frames a))%nat
  then mkAnim (frames a) (fps a) (loops a)
         (S (frame_index a)) (loop_count a) false
  else
    let count := S (loop_count a) in
    match loops a with
    | Some budget =>
        if (budget <=? count)%nat
        then mkAnim (frames a) (fps a) (loops a) (frame_index a) count true
        else mkAnim (frames a) (fps a) (loops a) 0 count false
    | None => mkAnim (frames a) (fps a) (loops a) 0 count false
    end.

(** A clip of [n] frames with a budget of [budget] repetitions that has
    played [k] frame periods and is not done. *)
Definition playing (n budget : nat) (a : Anim) (k : nat) : Prop :=
  done a = false
  /\ length (frames a) = n
  /\ loops a = Some budget
  /\ (frame_index a < n)%nat
  /\ (loop_count a * n + frame_index a)%nat = k.

(** ** The compositor *)

Definition DRAW_ORDER (d : Direction) : list Slot :=
  match d with
  | Front => [Body; Head; Weapon; Armleg; Shield]
  | Back => [Shield; Armleg; Weapon; Body; Head]
  | Left => [Shield; Body; Head; Weapon; Armleg]
  | Right => [Weapon; Body; Head; Armleg; Shield]
  end.

Definition DRAW_ATTACK_ORDER (d : Direction) : list Slot :=
  match d with
  | Front => [Shield; Body; Head; Weapon; Armleg]
  | Back => [Armleg; Weapon; Body; Head; Shield]
  | Left => [Shield; Body; Head; Weapon; Armleg]
  | Right => [Weapon; Body; Head; Armleg; Shield]
  end.

(** [base] of [make_images]: a converted surface filled with its colour
    key. *)
Definition base : Surface :=
  fill COLOR_KEY (set_colorkey COLOR_KEY (convert Surface_new)).

(** [get_part(direction, part, frame)] with [get_part] chosen by
    [attack]. *)
Definition get_part (equipped : Equipped) (attack : bool)
  (direction : Direction) (part : Slot) (frame : Z)
  : result (option Surface) :=
  if attack then get_attack_part_image equipped direction part frame
  else s <- get_part_image equipped direction part frame ;; Ok (Some s).

(** The body of the loop over the parts. *)
Definition blit_part (equipped : Equipped) (attack : bool)
  (direction : Direction) (frame : Z) (image : Surface) (part : Slot)
  : result Surface :=
  if is_equipped equipped part
  then
    blitting <- get_part equipped attack direction part frame ;;
    match blitting with
    | Some s => Ok (blit image s)
    | None => Ok image
    end
  else Ok image.

Fixpoint blit_parts (equipped : Equipped) (attack : bool)
  (direction : Direction) (frame : Z) (image : Surface)
  (parts : list Slot) : result Surface :=
  match parts with
  | [] => Ok image
  | part :: rest =>
      image' <- blit_part equipped attack direction frame image part ;;
      blit_parts equipped attack direction frame image' rest
  end.

(** The body of the loop over the directions: the two frames and their
    clip. *)
Definition make_anim (equipped : Equipped) (attack : bool)
  (order : Direction -> list Slot) (direction : Direction) : result Anim :=
  frame0 <- blit_parts equipped attack direction 0 base (order direction) ;;
  frame1 <- blit_parts equipped attack direction 1 base (order direction) ;;
  Ok (Anim_new [frame0; frame1] STANDARD_ANIMATION_FPS unbounded).

Definition make_images (equipped : Equipped) (attack : bool)
  (order : Direction -> list Slot) : result (DirTable Anim) :=
  f <- make_anim equipped attack order Front ;;
  b <- make_anim equipped attack order Back ;;
  l <- make_anim equipped attack order Left ;;
  r <- make_anim equipped attack order Right ;;
  Ok (mkDirTable f b l r).

(** ** The hit-flash generator *)

(** [index, colorkey = (0, (235,0,85)) if i else (2, (85,0,235))] *)
Definition hit_index (i : nat) : nat :=
  match i with
  | 0%nat => 2%nat
  | S _ => 0%nat
  end.

Definition hit_colorkey (i : nat) : Color :=
  match i with
  | 0%nat => rgb 85 0 235
  | S _ => rgb 235 0 85
  end.

(** [color[index] = min(color[index]+150, 255)] *)
Definition boost (index : nat) (color : Color) : Color :=
  set_channel index (Z.min (channel index color + 150) 255) color.

(** The 8-bit image the palette is taken from. *)
Definition reduce (frame : Surface) : Surface :=
  convert8 (blit (fill (rgb 85 0 85) Surface_new) frame).

(** The palette after the loop over its colours. *)
Definition hit_palette (i : nat) (image : Surface) : list Color :=
  map (boost (hit_index i)) (get_palette image).

(** The body of the loop over the frames. *)
Definition make_hit_frame (i : nat) (frame : Surface) : Surface :=
  let image := reduce frame in
  set_colorkey (hit_colorkey i) (set_palette (hit_palette i image) image).

(** The hit-flash frame as its description has it: red boosted at an
    even frame index, blue at an odd one. *)
Definition described_hit_index (i : nat) : nat :=
  if Nat.even i then 0%nat else 2%nat.

Definition described_hit_frame (i : nat) (frame : Surface) : Surface :=
  let image := reduce frame in
  set_colorkey (hit_colorkey i)
    (set_palette (map (boost (described_hit_index i)) (get_palette image))
       image).

(** [for i,frame in enumerate(...)], counting from [i]. *)
Fixpoint make_hit_frames (i : nat) (frames : list Surface) : list Surface :=
  match frames with
  | [] => []
  | frame :: rest => make_hit_frame i frame :: make_hit_frames (S i) rest
  end.

Definition make_hit_anim (a : Anim) : Anim :=
  Anim_new (make_hit_frames 0 (frames a)) HIT_ANIMATION_FPS (Some 10%nat).

Definition make_hit_images (from_dict : DirTable Anim) : DirTable Anim :=
  dir_map make_hit_anim from_dict.

(** ** The animation table *)

(** The dict with the keys ["normal"] and ["attack"]. *)
Record Animations : Type := mkAnimations {
  normal_anims : DirTable Anim;
  attack_anims : DirTable Anim
}.

(** The list [[standard, strobing]], indexed by [hit_state]. *)
Record AllAnimations : Type := mkAllAnimations {
  standard : Animations;
  strobing : Animations
}.

Definition make_all_animations (equipped : Equipped) : result AllAnimations :=
  normal <- make_images equipped false DRAW_ORDER ;;
  attack <- make_images equipped true DRAW_ATTACK_ORDER ;;
  Ok (mkAllAnimations
        (mkAnimations normal attack)
        (mkAnimations (make_hit_images normal) (make_hit_images attack))).

Definition by_action (action : ActionState) (a : Animations) : DirTable Anim :=
  match action with
  | Normal => normal_anims a
  | Attack => attack_anims a
  end.

(** [all_animations[hit_state][action_state][direction]] *)
Definition anim_at (all : AllAnimations) (hit : bool) (action : ActionState)
  (direction : Direction) : Anim :=
  dir_get direction (by_action action (if hit then strobing all else standard all)).

Definition set_by_action (action : ActionState) (t : DirTable Anim)
  (a : Animations) : Animations :=
  match action with
  | Normal => mkAnimations t (attack_anims a)
  | Attack => mkAnimations (normal_anims a) t
  end.

(** The table after the clip at an entry has changed its state. *)
Definition anim_put (all : AllAnimations) (hit : bool) (action : ActionState)
  (direction : Direction) (a : Anim) : AllAnimations :=
  if hit
  then mkAllAnimations (standard all)
         (set_by_action action
            (dir_set direction a (by_action action (strobing all)))
            (strobing all))
  else mkAllAnimations
         (set_by_action action
            (dir_set direction a (by_action action (standard all)))
            (standard all))
         (strobing all).

(** ** The player *)

(** The attributes of a player that its methods below neither read nor
    write ([rect], [exact_position], [old_position], [speed],
    [inventory], [mask], [shadow]). *)
Context {Others : Type}.

(** [animation.get_next_frame(now)]: the clip after the query, and the
    frame it returns. *)
Variable get_next_frame : Anim -> Z -> Anim * Surface.

Record Player : Type := mkPlayer {
  direction : Direction;
  direction_stack : list Direction;
  controls : list (Z * Direction);
  equipped : Equipped;
  all_animations : AllAnimations;
  image : option Surface;
  action_state : ActionState;
  hit_state : bool;
  redraw : bool;
  health : Z;
  others : Others
}.

Definition set_direction (v : Direction) (p : Player) : Player :=
  mkPlayer v (direction_stack p) (controls p) (equipped p)
    (all_animations p) (image p) (action_state p) (hit_state p) (redraw p)
    (health p) (others p).

Definition set_direction_stack (v : list Direction) (p : Player) : Player :=
  mkPlayer (direction p) v (controls p) (equipped p)
    (all_animations p) (image p) (action_state p) (hit_state p) (redraw p)
    (health p) (others p).

Definition set_all_animations (v : AllAnimations) (p : Player) : Player :=
  mkPlayer (direction p) (direction_stack p) (controls p) (equipped p)
    v (image p) (action_state p) (hit_state p) (redraw p)
    (health p) (others p).

Definition set_image (v : option Surface) (p : Player) : Player :=
  mkPlayer (direction p) (direction_stack p) (controls p) (equipped p)
    (all_animations p) v (action_state p) (hit_state p) (redraw p)
    (health p) (others p).

Definition set_action_state (v : ActionState) (p : Player) : Player :=
  mkPlayer (direction p) (direction_stack p) (controls p) (equipped p)
    (all_animations p) (image p) v (hit_state p) (redraw p)
    (health p) (others p).

Definition set_hit_state (v : bool) (p : Player) : Player :=
  mkPlayer (direction p) (direction_stack p) (controls p) (equipped p)
    (all_animations p) (image p) (action_state p) v (redraw p)
    (health p) (others p).

Definition set_redraw (v : bool) (p : Player) : Player :=
  mkPlayer (direction p) (direction_stack p) (controls p) (equipped p)
    (all_animations p) (image p) (action_state p) (hit_state p) v
    (health p) (others p).

Definition set_health (v : Z) (p : Player) : Player :=
  mkPlayer (direction p) (direction_stack p) (controls p) (equipped p)
    (all_animations p) (image p) (action_state p) (hit_state p) (redraw p)
    v (others p).

(** The dict literal of [set_controls], filled key by key. *)
Definition set_controls : list (Z * Direction) :=
  dict_set Z.eqb K_RIGHT Right
    (dict_set Z.eqb K_LEFT Left
       (dict_set Z.eqb K_UP Back
          (dict_set Z.eqb K_DOWN Front []))).

(** [Player.__init__], given the equipment [set_equips] returns. *)
Definition Player_init (start : Direction) (equips : Equipped)
  (rest : Others) : result Player :=
  animations <- make_all_animations equips ;;
  Ok (mkPlayer start [] set_controls equips animations None
        Normal false true 28 rest).

Definition adjust_frames (now : Z) (p : Player) : Player :=
  let p1 :=
    match direction_stack p with
    | [] => p
    | top :: below => set_direction (last below top) p
    end in
  let animation :=
    anim_at (all_animations p1) (hit_state p1) (action_state p1)
      (direction p1) in
  let p2 :=
    if nonempty (direction_stack p1) || hit_state p1 || redraw p1
    then
      let (animation', frame) := get_next_frame animation now in
      set_image (Some frame)
        (set_all_animations
           (anim_put (all_animations p1) (hit_state p1) (action_state p1)
              (direction p1) animation')
           p1)
    else p1 in
  set_redraw false p2.

Definition add_direction (key : Z) (p : Player) : Player :=
  match dict_find Z.eqb key (controls p) with
  | Some direction =>
      let stack :=
        if contains direction (direction_stack p)
        then list_remove direction (direction_stack p)
        else direction_stack p in
      set_direction_stack (stack ++ [direction]) p
  | None => p
  end.

Definition pop_direction (key : Z) (p : Player) : Player :=
  match dict_find Z.eqb key (controls p) with
  | Some direction =>
      if contains direction (direction_stack p)
      then set_direction_stack (list_remove direction (direction_stack p)) p
      else p
  | None => p
  end.

Definition got_hit (enemy_damage : Z) (p : Player) : Player :=
  if negb (hit_state p)
  then set_hit_state true (set_health (Z.min (health p - enemy_damage) 0) p)
  else p.

(** The first [if] of [check_states].  The weapon is looked at only when
    the player is attacking. *)
Definition check_attack (p : Player) : result Player :=
  if ActionState_eqb (action_state p) Attack
  then
    w <- item_of (equipped p) Weapon ;;
    if negb (attacking w)
    then Ok (set_redraw true (set_action_state Normal p))
    else Ok p
  else Ok p.

(** The second [if] of [check_states]. *)
Definition check_hit (p : Player) : Player :=
  if hit_state p
  then
    let animation :=
      anim_at (all_animations p) (hit_state p) (action_state p)
        (direction p) in
    let p1 :=
      if done animation
      then
        set_hit_state false
          (set_all_animations
             (anim_put (all_animations p) (hit_state p) (action_state p)
                (direction p) (Anim_reset animation))
             p)
      else p in
    set_redraw true p1
  else p.

Definition check_states (p : Player) : result Player :=
  p1 <- check_attack p ;;
  Ok (check_hit p1).

(** ** Key events *)

(** A key going down calls [add_direction], a key going up
    [pop_direction]. *)
Inductive KeyEvent : Type :=
| Press (key : Z)
| Release (key : Z).

Definition handle (p : Player) (e : KeyEvent) : Player :=
  match e with
  | Press key => add_direction key p
  | Release key => pop_direction key p
  end.

Definition handle_all (events : list KeyEvent) (p : Player) : Player :=
  fold_left handle events p.

(** The shield override as it is described for a composition mode: with
    a shield equipped, the arm/leg part facing right is taken from the
    item's ["right_with_shield"] images. *)
Definition shield_override (equipped : Equipped) (attack : bool)
  (frame : Z) : Prop :=
  forall item alternate,
    equipped Armleg = Some item ->
    is_equipped equipped Shield = true ->
    images_get RightWithShield (images item) = Ok alternate ->
    get_part equipped attack Right Armleg frame
    = (s <- frame_of alternate frame ;; Ok (Some s)).

End Model.

(** ** A player to run the model on *)

Section Samples.

#[local] Existing Instance one_pixel.

Definition px (r g b : Z) : Pixel := mkPixel (rgb r g b) (Some COLOR_KEY).

Definition all_facing (s : ImageSet) : ImageDict :=
  [(Facing Front, s); (Facing Back, s); (Facing Left, s); (Facing Right, s)].

Definition sample_head : Item :=
  mkItem (all_facing (Single (px 10 0 0))) AttackNormal false.

Definition sample_body : Item :=
  mkItem (all_facing (Frames [px 20 0 0; px 20 1 0])) AttackNormal false.

Definition sample_weapon : Item :=
  mkItem (all_facing (Single (px 30 0 0))) AttackNone false.

Definition sample_shield : Item :=
  mkItem (all_facing (Single (px 50 0 0))) AttackNormal false.

(** Arms and legs that reuse their normal images while attacking. *)
Definition sample_armleg : Item :=
  mkItem
    (all_facing (Frames [px 40 0 0; px 40 1 0])
     ++ [(RightWithShield, Frames [px 45 0 0; px 45 1 0])])
    AttackNormal false.

(** Arms and legs with attack images of their own. *)
Definition sample_armleg_swing : Item :=
  mkItem
    (all_facing (Frames [px 40 0 0; px 40 1 0])
     ++ [(RightWithShield, Frames [px 45 0 0; px 45 1 0])])
    (AttackSet (all_facing (Frames [px 60 0 0; px 60 1 0]))) false.

Definition sample_equipped : Equipped :=
  fun part =>
    match part with
    | Head => Some sample_head
    | Body => Some sample_body
    | Weapon => Some sample_weapon
    | Armleg => Some sample_armleg
    | Shield => Some sample_shield
    end.

Definition sample_equipped_swing : Equipped :=
  fun part =>
    match part with
    | Armleg => Some sample_armleg_swing
    | other => sample_equipped other
    end.

(** A clip that shows its current frame and moves on at every query. *)
Definition sample_get_next_frame (a : Anim) (now : Z) : Anim * Surface :=
  (Anim_advance a, nth (frame_index a) (frames a) Surface_new).

Definition sample_animations : AllAnimations :=
  match make_all_animations sample_equipped with
  | Ok all => all
  | Raise _ =>
      let t := mkDirTable (Anim_new [] 0 None) (Anim_new [] 0 None)
                 (Anim_new [] 0 None) (Anim_new [] 0 None) in
      mkAllAnimations (mkAnimations t t) (mkAnimations t t)
  end.

(** The player [Player_init Back sample_equipped tt] returns. *)
Definition sample_player : Player (Others := unit) :=
  mkPlayer Back [] set_controls sample_equipped sample_animations None
    Normal false true 28 tt.

End Samples.

(** ** Attacking *)

Section Attacking.

Context `{Pygame} {Others : Type}.

(** [weapon.start_attack()]: the weapon after the call, and whether it
    accepts the attack. *)
Variable start_attack : Item -> Item * bool.

Definition set_equipped (v : Equipped) (p : Player (Others := Others))
  : Player :=
  mkPlayer (direction p) (direction_stack p) (controls p) v
    (all_animations p) (image p) (action_state p) (hit_state p) (redraw p)
    (health p) (others p).

(** The equipment with the item of a slot in its new state. *)
Definition equip (part : Slot) (item : Item) (equipped : Equipped)
  : Equipped :=
  fun s => if Slot_eqb s part then Some item else equipped s.

Definition attack (p : Player (Others := Others)) : result Player :=
  if negb (ActionState_eqb (action_state p) Attack)
  then
    w <- item_of (equipped p) Weapon ;;
    let (w', ready) := start_attack w in
    let p1 := set_equipped (equip Weapon w' (equipped p)) p in
    if ready
    then Ok (set_redraw true (set_action_state Attack p1))
    else Ok p1
  else Ok p.

End Attacking.

(** ** Position and movement *)

Section Movement.

Context `{Pygame}.

(** The numbers of positions, speeds and time steps, the rectangle of
    the sprite, and the attributes left aside ([inventory], [mask],
    [shadow]). *)
Context {Num Rect Rest : Type}.

(** The product and the sum [move] takes. *)
Variable mul : Num -> Num -> Num.
Variable add : Num -> Num -> Num.

(** [prepare.DIRECT_DICT]: the vector of a direction. *)
Variable DIRECT_DICT : Direction -> Num * Num.

(** [rect.topleft = position] *)
Variable set_topleft : Num * Num -> Rect -> Rect.

(** The two-element lists [exact_position] and [old_position] are kept
    as pairs: [move] sets [old_position] to a copy before it changes
    [exact_position] in place, so that the one list the two attributes
    name after [collide_with_solid] is never changed under either
    name. *)
Record Geometry : Type := mkGeometry {
  rect : Rect;
  exact_position : Num * Num;
  old_position : Num * Num;
  speed : Num;
  rest : Rest
}.

Definition Mover : Type := Player (Others := Geometry).

Definition set_others (v : Geometry) (p : Mover) : Mover :=
  mkPlayer (direction p) (direction_stack p) (controls p) (equipped p)
    (all_animations p) (image p) (action_state p) (hit_state p) (redraw p)
    (health p) v.

Definition collide_with_solid (p : Mover) : Mover :=
  let g := others p in
  set_others
    (mkGeometry (set_topleft (old_position g) (rect g))
       (old_position g) (old_position g) (speed g) (rest g))
    p.

Definition move (dt : Num) (p : Mover) : Mover :=
  let g := others p in
  let position := exact_position g in
  match direction_stack p with
  | [] =>
      set_others (mkGeometry (rect g) position position (speed g) (rest g)) p
  | top :: below =>
      let vector := DIRECT_DICT (last below top) in
      let x := add (fst position) (mul (mul (speed g) (fst vector)) dt) in
      let y := add (snd position) (mul (mul (speed g) (snd vector)) dt) in
      set_others (mkGeometry (rect g) (x, y) position (speed g) (rest g)) p
  end.

(** [animation.get_next_frame(now)], as in [adjust_frames]. *)
Variable get_next_frame : Anim -> Z -> Anim * Surface.

(** [weapon.attack(player, now)]: the player after the call. *)
Variable weapon_attack : Item -> Mover -> Z -> Mover.

(** The last line of [update]. *)
Definition commit_position (p : Mover) : Mover :=
  let g := others p in
  set_others
    (mkGeometry (set_topleft (exact_position g) (rect g))
       (exact_position g) (old_position g) (speed g) (rest g))
    p.

Definition update (now : Z) (dt : Num) (p : Mover) : result Mover :=
  p1 <- check_states p ;;
  let p2 := adjust_frames get_next_frame now p1 in
  p3 <- (if negb (ActionState_eqb (action_state p2) Attack)
         then Ok (move dt p2)
         else
           w <- item_of (equipped p2) Weapon ;;
           Ok (weapon_attack w p2 now)) ;;
  Ok (commit_position p3).

End Movement.

(** ** Held directions *)

(** Whether a key of the controls is bound to the direction. *)
Definition binds (controls : list (Z * Direction)) (key : Z)
  (d : Direction) : bool :=
  match dict_find Z.eqb key controls with
  | Some d' => Direction_eqb d d'
  | None => false
  end.

(** Whether a direction is held after the events, given whether it was
    before: the last press or release of a key bound to it decides. *)
Definition held_after (controls : list (Z * Direction))
  (events : list KeyEvent) (d : Direction) (before : bool) : bool :=
  fold_left
    (fun held e =>
       match e with
       | Press key => if binds controls key d then true else held
       | Release key => if binds controls key d then false else held
       end)
    events before.

(** ** A player that moves, to run the model on *)

Section MovingSamples.

#[local] Existing Instance one_pixel.

(** Moving by whole pixels: up is the negative direction of [y]. *)
Definition sample_vectors (d : Direction) : Z * Z :=
  match d with
  | Front => (0, 1)
  | Back => (0, -1)
  | Left => (-1, 0)
  | Right => (1, 0)
  end.

Definition sample_set_topleft (position : Z * Z) (r : Z * Z) : Z * Z :=
  position.

Definition sample_geometry : Geometry (Num := Z) (Rect := Z * Z) :=
  mkGeometry (100, 100) (100, 100) (100, 100) 3 tt.

Definition sample_mover : Mover (Num := Z) (Rect := Z * Z) (Rest := unit) :=
  mkPlayer Back [] set_controls sample_equipped sample_animations None
    Normal false true 28 sample_geometry.

(** A weapon that accepts every attack and is then attacking. *)
Definition sample_start_attack (w : Item) : Item * bool :=
  (mkItem (images w) (attack_images w) true, true).

(** A weapon whose attack is over after one tick. *)
Definition sample_weapon_attack (w : Item)
  (p : Mover (Num := Z) (Rect := Z * Z) (Rest := unit)) (now : Z)
  : Mover (Num := Z) (Rect := Z * Z) (Rest := unit) :=
  set_equipped
    (equip Weapon (mkItem (images w) (attack_images w) false) (equipped p))
    p.

(** Nothing equipped in any slot. *)
Definition nothing_equipped : Equipped := fun _ => None.

(** A head and a body only, both reusing their images for the attack. *)
Definition plain_equipped : Equipped :=
  fun part =>
    match part with
    | Head => Some sample_head
    | Body => Some sample_body
    | _ => None
    end.

End MovingSamples.

(** * Properties *)

(** ** Enumerations and lists *)

Lemma Direction_eqb_spec (a b : Direction) :
  reflect (a = b) (Direction_eqb a b).
Proof. destruct a, b; constructor; congruence. Qed.

Lemma Direction_eqb_refl (a : Direction) : Direction_eqb a a = true.
Proof. now destruct a. Qed.

Lemma Direction_eqb_neq (a b : Direction) :
  a <> b -> Direction_eqb a b = false.
Proof. destruct (Direction_eqb_spec a b); congruence. Qed.

Lemma contains_In (x : Direction) (l : list Direction) :
  contains x l = true <-> In x l.
Proof.
  unfold contains. rewrite existsb_exists. split.
  - intros [y [Hy Heq]].
    destruct (Direction_eqb_spec x y); [subst; assumption | discriminate].
  - intros Hin. exists x. split; [assumption | apply Direction_eqb_refl].
Qed.

Lemma contains_false (x : Direction) (l : list Direction) :
  contains x l = false <-> ~ In x l.
Proof.
  rewrite <- contains_In. destruct (contains x l); split; congruence.
Qed.

Lemma without_absent (d : Direction) (l : list Direction) :
  ~ In d l -> without d l = l.
Proof.
  unfold without. induction l as [|y l IH]; simpl; intros Hnot; [reflexivity|].
  destruct (Direction_eqb_spec d y) as [->|Hne]; simpl.
  - exfalso. apply Hnot. now left.
  - f_equal. apply IH. intros Hin. apply Hnot. now right.
Qed.

Lemma list_remove_without (d : Direction) (l : list Direction) :
  NoDup l -> list_remove d l = without d l.
Proof.
  induction 1 as [|y l Hy Hl IH]; simpl; [reflexivity|].
  unfold without in *. simpl.
  destruct (Direction_eqb_spec d y) as [->|Hne]; simpl.
  - symmetry. now apply without_absent.
  - now rewrite IH.
Qed.

Lemma without_not_In (d : Direction) (l : list Direction) :
  ~ In d (without d l).
Proof.
  unfold without. rewrite filter_In. intros [_ Hd].
  now rewrite Direction_eqb_refl in Hd.
Qed.

Lemma without_NoDup (d : Direction) (l : list Direction) :
  NoDup l -> NoDup (without d l).
Proof. unfold without. apply NoDup_filter. Qed.

Lemma NoDup_snoc (d : Direction) (l : list Direction) :
  NoDup l -> ~ In d l -> NoDup (l ++ [d]).
Proof.
  intros Hl Hd. apply NoDup_app.
  - assumption.
  - repeat constructor. intros [].
  - intros x Hx [<-|[]]. now apply Hd.
Qed.

(** What the two branches on [direction in self.direction_stack] amount
    to on a stack without duplicates. *)
Lemma removed_without (d : Direction) (l : list Direction) :
  NoDup l ->
  (if contains d l then list_remove d l else l) = without d l.
Proof.
  intros Hl. destruct (contains d l) eqn:Hc.
  - now apply list_remove_without.
  - symmetry. apply without_absent. now apply contains_false.
Qed.

Lemma without_app (d : Direction) (l l' : list Direction) :
  without d (l ++ l') = without d l ++ without d l'.
Proof. unfold without. apply filter_app. Qed.

Lemma without_same (d : Direction) : without d [d] = [].
Proof. unfold without. simpl. now rewrite Direction_eqb_refl. Qed.

Lemma without_other (d x : Direction) : d <> x -> without d [x] = [x].
Proof.
  intros Hne. unfold without. simpl. now rewrite Direction_eqb_neq.
Qed.

Lemma without_idem (d : Direction) (l : list Direction) :
  without d (without d l) = without d l.
Proof. apply without_absent, without_not_In. Qed.

Lemma without_comm (a b : Direction) (l : list Direction) :
  without a (without b l) = without b (without a l).
Proof.
  unfold without. induction l as [|y l IH]; simpl; [reflexivity|].
  destruct (Direction_eqb a y) eqn:Ha, (Direction_eqb b y) eqn:Hb; simpl;
    rewrite ?Ha, ?Hb; simpl; now rewrite IH.
Qed.

Section Properties.

Context `{Pygame} {Others : Type}.

Implicit Types (p : Player (Others := Others)) (d : Direction).

(** ** The direction stack *)

Lemma add_direction_bound p key d :
  dict_find Z.eqb key (controls p) = Some d ->
  NoDup (direction_stack p) ->
  add_direction key p
  = set_direction_stack (without d (direction_stack p) ++ [d]) p.
Proof.
  intros Hkey Hnd. unfold add_direction. rewrite Hkey.
  now rewrite removed_without.
Qed.

Lemma pop_direction_bound p key d :
  dict_find Z.eqb key (controls p) = Some d ->
  NoDup (direction_stack p) ->
  direction_stack (pop_direction key p) = without d (direction_stack p).
Proof.
  intros Hkey Hnd. unfold pop_direction. rewrite Hkey.
  rewrite <- (removed_without d) by assumption.
  now destruct (contains d (direction_stack p)).
Qed.

Lemma add_direction_controls p key :
  controls (add_direction key p) = controls p.
Proof.
  unfold add_direction. now destruct (dict_find Z.eqb key (controls p)).
Qed.

Lemma pop_direction_controls p key :
  controls (pop_direction key p) = controls p.
Proof.
  unfold pop_direction. destruct (dict_find Z.eqb key (controls p)) as [d|];
    [|reflexivity].
  now destruct (contains d (direction_stack p)).
Qed.

Lemma add_direction_NoDup p key :
  NoDup (direction_stack p) -> NoDup (direction_stack (add_direction key p)).
Proof.
  intros Hnd. destruct (dict_find Z.eqb key (controls p)) as [d|] eqn:Hkey.
  - rewrite (add_direction_bound p key d) by assumption. simpl.
    apply NoDup_snoc; [now apply without_NoDup | apply without_not_In].
  - unfold add_direction. now rewrite Hkey.
Qed.

Lemma pop_direction_NoDup p key :
  NoDup (direction_stack p) -> NoDup (direction_stack (pop_direction key p)).
Proof.
  intros Hnd. destruct (dict_find Z.eqb key (controls p)) as [d|] eqn:Hkey.
  - rewrite (pop_direction_bound p key d) by assumption.
    now apply without_NoDup.
  - unfold pop_direction. now rewrite Hkey.
Qed.

Lemma handle_all_NoDup (events : list KeyEvent) p :
  NoDup (direction_stack p) ->
  NoDup (direction_stack (handle_all events p)).
Proof.
  unfold handle_all. revert p.
  induction events as [|e events IH]; intros p Hnd; simpl; [assumption|].
  apply IH. destruct e; simpl.
  - now apply add_direction_NoDup.
  - now apply pop_direction_NoDup.
Qed.

(** C4.  From the empty stack a player starts with, after any sequence
    of key presses and releases: the stack has no duplicates; pressing a
    bound key takes its direction out of the stack and puts it last;
    releasing a bound key takes its direction out, and changes nothing
    when the direction is not in the stack; and pressing A, B, A leaves
    A last with B just below, so that releasing A leaves B last. *)
Theorem direction_stack_rollover p0 (events : list KeyEvent) :
  direction_stack p0 = [] ->
  let p := handle_all events p0 in
  NoDup (direction_stack p)
  /\ (forall key d,
        dict_find Z.eqb key (controls p) = Some d ->
        add_direction key p
        = set_direction_stack (without d (direction_stack p) ++ [d]) p
        /\ ~ In d (without d (direction_stack p))
        /\ direction_stack (pop_direction key p)
           = without d (direction_stack p)
        /\ (~ In d (direction_stack p) -> pop_direction key p = p))
  /\ (forall ka kb a b,
        dict_find Z.eqb ka (controls p) = Some a ->
        dict_find Z.eqb kb (controls p) = Some b ->
        a <> b ->
        let pressed := add_direction ka (add_direction kb (add_direction ka p)) in
        let below := without b (without a (direction_stack p)) in
        direction_stack pressed = below ++ [b; a]
        /\ direction_stack (pop_direction ka pressed) = below ++ [b]).
Proof.
  intros Hempty p.
  assert (Hnd : NoDup (direction_stack p)).
  { apply handle_all_NoDup. rewrite Hempty. constructor. }
  split; [assumption|]. split.
  - intros key d Hkey. repeat split.
    + now apply add_direction_bound.
    + apply without_not_In.
    + now apply pop_direction_bound.
    + intros Hnot. unfold pop_direction. rewrite Hkey.
      apply contains_false in Hnot. now rewrite Hnot.
  - intros ka kb a b Ha Hb Hne pressed below.
    set (p1 := add_direction ka p).
    assert (H1 : direction_stack p1 = without a (direction_stack p) ++ [a]).
    { unfold p1. now rewrite (add_direction_bound p ka a). }
    assert (Hnd1 : NoDup (direction_stack p1))
      by now apply add_direction_NoDup.
    set (p2 := add_direction kb p1).
    assert (Hb1 : dict_find Z.eqb kb (controls p1) = Some b).
    { unfold p1. now rewrite add_direction_controls. }
    assert (H2 : direction_stack p2 = below ++ [a; b]).
    { unfold p2. rewrite (add_direction_bound p1 kb b) by assumption.
      simpl. rewrite H1, without_app, without_other by congruence.
      unfold below. now rewrite <- app_assoc. }
    assert (Hnd2 : NoDup (direction_stack p2))
      by now apply add_direction_NoDup.
    assert (Ha2 : dict_find Z.eqb ka (controls p2) = Some a).
    { unfold p2, p1. now rewrite !add_direction_controls. }
    assert (Hbelow : without a below = below).
    { unfold below. rewrite (without_comm a b). f_equal. apply without_idem. }
    assert (H3 : direction_stack pressed = below ++ [b; a]).
    { unfold pressed. fold p1. fold p2.
      rewrite (add_direction_bound p2 ka a) by assumption. simpl.
      rewrite H2, without_app, Hbelow.
      change [a; b] with ([a] ++ [b]).
      rewrite without_app, without_same, without_other by assumption.
      simpl. now rewrite <- app_assoc. }
    split; [assumption|].
    assert (Hnd3 : NoDup (direction_stack pressed)).
    { unfold pressed. now apply add_direction_NoDup. }
    rewrite (pop_direction_bound pressed ka a).
    + rewrite H3, without_app, Hbelow.
      change [b; a] with ([b] ++ [a]).
      now rewrite without_app, without_same, without_other, app_nil_r
        by assumption.
    + unfold pressed. fold p1. fold p2. now rewrite add_direction_controls.
    + assumption.
Qed.

(** ** The controls *)

Lemma dict_find_set_other {V : Type} (k k' : Z) (v : V) (d : list (Z * V)) :
  k <> k' ->
  dict_find Z.eqb k (dict_set Z.eqb k' v d) = dict_find Z.eqb k d.
Proof.
  intros Hne. apply Z.eqb_neq in Hne.
  induction d as [|[k'' v''] d IH]; simpl.
  - now rewrite Hne.
  - destruct (Z.eqb_spec k' k'') as [->|Hne']; simpl.
    + now rewrite Hne.
    + now rewrite IH.
Qed.

Lemma dict_find_set_same {V : Type} (k : Z) (v : V) (d : list (Z * V)) :
  dict_find Z.eqb k (dict_set Z.eqb k v d) = Some v.
Proof.
  induction d as [|[k'' v''] d IH]; simpl.
  - now rewrite Z.eqb_refl.
  - destruct (Z.eqb_spec k k'') as [->|Hne]; simpl.
    + now rewrite Z.eqb_refl.
    + apply Z.eqb_neq in Hne. now rewrite Hne.
Qed.

(** The keys of [set_controls] are the four arrow keys and no other. *)
Lemma set_controls_unbound (key : Z) :
  dict_find Z.eqb key set_controls = None
  <-> key <> K_DOWN /\ key <> K_UP /\ key <> K_LEFT /\ key <> K_RIGHT.
Proof.
  unfold set_controls. split.
  - intros Hnone.
    destruct (Z.eq_dec key K_RIGHT) as [->|Hr].
    { now rewrite dict_find_set_same in Hnone. }
    rewrite dict_find_set_other in Hnone by assumption.
    destruct (Z.eq_dec key K_LEFT) as [->|Hl].
    { now rewrite dict_find_set_same in Hnone. }
    rewrite dict_find_set_other in Hnone by assumption.
    destruct (Z.eq_dec key K_UP) as [->|Hu].
    { now rewrite dict_find_set_same in Hnone. }
    rewrite dict_find_set_other in Hnone by assumption.
    destruct (Z.eq_dec key K_DOWN) as [->|Hd].
    { now rewrite dict_find_set_same in Hnone. }
    tauto.
  - intros (Hd & Hu & Hl & Hr).
    now rewrite !dict_find_set_other by assumption.
Qed.

(** C10.  A key that is none of the four arrow keys the controls bind
    changes nothing: [add_direction] and [pop_direction] return the
    player as it was. *)
Theorem unbound_key_ignored p (key : Z) :
  controls p = set_controls ->
  key <> K_DOWN -> key <> K_UP -> key <> K_LEFT -> key <> K_RIGHT ->
  add_direction key p = p /\ pop_direction key p = p.
Proof.
  intros Hc Hd Hu Hl Hr.
  assert (Hnone : dict_find Z.eqb key (controls p) = None).
  { rewrite Hc. apply set_controls_unbound. tauto. }
  unfold add_direction, pop_direction. now rewrite Hnone.
Qed.

(** ** Damage *)

(** C1.  Outside the hit state, [got_hit] sets the health to the
    minimum of the health less the damage and 0, and enters the hit
    state, all else unchanged; in the hit state it changes nothing. *)
Theorem got_hit_once p (enemy_damage : Z) :
  (hit_state p = false ->
   got_hit enemy_damage p
   = set_hit_state true
       (set_health (Z.min (health p - enemy_damage) 0) p)
   /\ health (got_hit enemy_damage p) = Z.min (health p - enemy_damage) 0
   /\ hit_state (got_hit enemy_damage p) = true)
  /\ (hit_state p = true -> got_hit enemy_damage p = p).
Proof.
  unfold got_hit. split; intros Hhit; rewrite Hhit; simpl; auto.
Qed.

(** ** State resolution *)

(** [check_hit] leaves the action state alone and never clears the
    redraw flag. *)
Lemma check_hit_keeps p :
  action_state (check_hit p) = action_state p
  /\ (redraw p = true -> redraw (check_hit p) = true).
Proof.
  unfold check_hit. destruct (hit_state p); [|auto].
  destruct (done _); simpl; auto.
Qed.

(** C5.  When the player is in the attack state and the weapon reports
    that it is not attacking, [check_states] returns a player in the
    normal state with the redraw flag set. *)
Theorem attack_ends p (w : Item) :
  action_state p = Attack ->
  equipped p Weapon = Some w ->
  attacking w = false ->
  exists p',
    check_states p = Ok p'
    /\ action_state p' = Normal
    /\ redraw p' = true.
Proof.
  intros Hact Hw Hidle.
  unfold check_states, check_attack, item_of.
  rewrite Hact, Hw. simpl. rewrite Hidle. simpl.
  eexists. split; [reflexivity|].
  destruct (check_hit_keeps (set_redraw true (set_action_state Normal p)))
    as [Ha Hr].
  rewrite Ha. split; [reflexivity | now apply Hr].
Qed.

(** ** Frame selection *)

Lemma last_cons {A : Type} (x : A) (l : list A) (default : A) :
  last (x :: l) default = last l x.
Proof.
  revert x default.
  induction l as [|y l IH]; intros x default; [reflexivity|].
  change (last (x :: y :: l) default) with (last (y :: l) default).
  now rewrite (IH y default), (IH y x).
Qed.

Lemma anim_at_put_same (all : AllAnimations) (hit : bool)
  (action : ActionState) d (a : Anim) :
  anim_at (anim_put all hit action d a) hit action d = a.
Proof. now destruct hit, action, d. Qed.

Lemma anim_at_put_other (all : AllAnimations) (hit hit' : bool)
  (action action' : ActionState) d d' (a : Anim) :
  (hit', action', d') <> (hit, action, d) ->
  anim_at (anim_put all hit action d a) hit' action' d'
  = anim_at all hit' action' d'.
Proof.
  intros Hne.
  destruct hit, hit', action, action', d, d'; try reflexivity;
    now contradiction Hne.
Qed.

Variable get_next_frame : Anim -> Z -> Anim * Surface.

(** C6.  [adjust_frames] faces the top of the direction stack when
    there is one and looks up the clip for the hit state, the action
    state and that direction.  When the stack is not empty, or the
    player is in the hit state, or the redraw flag is set, that clip is
    queried at [now]: the image becomes the frame returned and the clip
    takes its new state, every other clip staying as it was.  Otherwise
    the image and the whole table stay as they were.  The redraw flag
    is false afterwards, and nothing else changes. *)
Theorem adjust_frames_selects (now : Z) p :
  let p' := adjust_frames get_next_frame now p in
  let facing := last (direction_stack p) (direction p) in
  let clip :=
    anim_at (all_animations p) (hit_state p) (action_state p) facing in
  redraw p' = false
  /\ direction p' = facing
  /\ (direction_stack p <> [] \/ hit_state p = true \/ redraw p = true ->
      image p' = Some (snd (get_next_frame clip now))
      /\ anim_at (all_animations p') (hit_state p) (action_state p) facing
         = fst (get_next_frame clip now)
      /\ forall hit action d,
           (hit, action, d) <> (hit_state p, action_state p, facing) ->
           anim_at (all_animations p') hit action d
           = anim_at (all_animations p) hit action d)
  /\ (direction_stack p = [] -> hit_state p = false -> redraw p = false ->
      image p' = image p /\ all_animations p' = all_animations p)
  /\ direction_stack p' = direction_stack p
  /\ hit_state p' = hit_state p
  /\ action_state p' = action_state p
  /\ health p' = health p
  /\ controls p' = controls p
  /\ equipped p' = equipped p
  /\ others p' = others p.
Proof.
  intros p' facing clip.
  assert (Hfacing :
    direction
      match direction_stack p with
      | [] => p
      | top :: below => set_direction (last below top) p
      end = facing).
  { unfold facing. destruct (direction_stack p) as [|top below];
      [reflexivity|]. simpl direction. symmetry. apply last_cons. }
  unfold p', adjust_frames.
  set (p1 := match direction_stack p with
             | [] => p
             | top :: below => set_direction (last below top) p
             end) in *.
  assert (Hsame : direction_stack p1 = direction_stack p
                  /\ hit_state p1 = hit_state p
                  /\ action_state p1 = action_state p
                  /\ redraw p1 = redraw p
                  /\ all_animations p1 = all_animations p
                  /\ image p1 = image p
                  /\ health p1 = health p
                  /\ controls p1 = controls p
                  /\ equipped p1 = equipped p
                  /\ others p1 = others p).
  { unfold p1. destruct (direction_stack p) eqn:Hstack; simpl;
      rewrite ?Hstack; repeat split. }
  destruct Hsame as (Hs & Hh & Ha & Hr & Hall & Hi & Hhe & Hc & He & Ho).
  rewrite Hfacing, Hs, Hh, Ha, Hr, Hall. fold clip.
  destruct (get_next_frame clip now) as [clip' frame] eqn:Hnext.
  destruct (nonempty (direction_stack p) || hit_state p || redraw p)
    eqn:Hcond; simpl.
  - split; [reflexivity|]. split; [assumption|]. split.
    { intros _. split; [reflexivity|]. split; [apply anim_at_put_same|].
      intros hit action d Hne. now apply anim_at_put_other. }
    split.
    { intros Hempty Hhit Hre. rewrite Hempty, Hhit, Hre in Hcond.
      discriminate. }
    repeat split; assumption.
  - split; [reflexivity|]. split; [assumption|]. split.
    { intros [Hstack | [Hhit | Hre]].
      - destruct (direction_stack p); [contradiction | discriminate].
      - rewrite Hhit, orb_true_r in Hcond. discriminate.
      - rewrite Hre, orb_true_r in Hcond. discriminate. }
    split.
    { intros _ _ _. split; assumption. }
    repeat split; assumption.
Qed.

(** ** The slot resolver *)

Lemma frame_of_pair (a b : Surface) (frame : Z) :
  frame = 0 \/ frame = 1 ->
  frame_of (Frames [a; b]) frame = Ok (if frame =? 0 then a else b).
Proof. intros [->| ->]; reflexivity. Qed.

(** C7.  For an equipped item, [get_attack_part_image] returns the
    item's normal image for the direction, indexed by the frame, when
    [attack_images] is ["normal"]; the image of the attack set for the
    direction, indexed the same way, when [attack_images] is a set of
    its own; and [None], without raising, when the item has no attack
    images.  With ["normal"], and apart from the shield override, that
    is the image normal mode returns. *)
Theorem attack_part_image_cases (equipped : Equipped) (part : Slot)
  (item : Item) d (frame : Z) :
  equipped part = Some item ->
  (attack_images item = AttackNormal ->
   get_attack_part_image equipped d part frame
   = (to_blit <- images_get (Facing d) (images item) ;;
      s <- frame_of to_blit frame ;;
      Ok (Some s)))
  /\ (attack_images item = AttackNormal ->
      Slot_eqb part Armleg && Direction_eqb d Right
      && is_equipped equipped Shield = false ->
      get_attack_part_image equipped d part frame
      = (s <- get_part_image equipped d part frame ;; Ok (Some s)))
  /\ (forall piece,
        attack_images item = AttackSet piece ->
        piece <> [] ->
        get_attack_part_image equipped d part frame
        = (to_blit <- images_get (Facing d) piece ;;
           s <- frame_of to_blit frame ;;
           Ok (Some s)))
  /\ (attack_images item = AttackNone \/ attack_images item = AttackSet [] ->
      get_attack_part_image equipped d part frame = Ok None).
Proof.
  intros Hitem.
  unfold get_attack_part_image, get_part_image, item_of. rewrite Hitem.
  simpl. repeat split.
  - intros ->. reflexivity.
  - intros -> ->. unfold piece_image.
    destruct (images_get (Facing d) (images item)) as [to_blit|e];
      [|reflexivity].
    simpl. now destruct (frame_of to_blit frame).
  - intros piece -> Hne. destruct piece; [contradiction | reflexivity].
  - intros [-> | ->]; reflexivity.
Qed.

(** C8.  For a frame index 0 or 1: when the image set a part resolves to
    is a pair, the resolver returns the element at the frame index; when
    it is a single image, the resolver returns that image, whatever the
    frame index, and does not raise.  This holds in normal mode, where
    the set is the item's images for the direction (or for
    ["right_with_shield"] under the shield override), and in attack
    mode, where it is taken for the direction from the images
    [attack_images] selects. *)
Theorem part_image_pair_or_single (equipped : Equipped) (part : Slot)
  (item : Item) d (frame : Z) :
  equipped part = Some item ->
  frame = 0 \/ frame = 1 ->
  let key :=
    if Slot_eqb part Armleg && Direction_eqb d Right
       && is_equipped equipped Shield
    then RightWithShield else Facing d in
  (forall a b,
     images_get key (images item) = Ok (Frames [a; b]) ->
     get_part_image equipped d part frame
     = Ok (if frame =? 0 then a else b))
  /\ (forall s,
        images_get key (images item) = Ok (Single s) ->
        get_part_image equipped d part frame = Ok s)
  /\ (forall piece,
        (attack_images item = AttackNormal /\ piece = images item)
        \/ (attack_images item = AttackSet piece /\ piece <> []) ->
        (forall a b,
           images_get (Facing d) piece = Ok (Frames [a; b]) ->
           get_attack_part_image equipped d part frame
           = Ok (Some (if frame =? 0 then a else b)))
        /\ (forall s,
              images_get (Facing d) piece = Ok (Single s) ->
              get_attack_part_image equipped d part frame = Ok (Some s))).
Proof.
  intros Hitem Hframe key.
  assert (Hnormal :
    get_part_image equipped d part frame
    = (to_blit <- images_get key (images item) ;; frame_of to_blit frame)).
  { unfold get_part_image, item_of, key. rewrite Hitem. cbn [bind].
    now destruct (_ && _ && _). }
  split; [|split].
  - intros a b Hset. rewrite Hnormal, Hset. cbn [bind].
    now apply frame_of_pair.
  - intros s Hset. now rewrite Hnormal, Hset.
  - intros piece Hpiece.
    assert (Hsel : get_attack_part_image equipped d part frame
                   = piece_image piece d frame).
    { unfold get_attack_part_image, item_of. rewrite Hitem. cbn [bind].
      destruct Hpiece as [[-> ->] | [-> Hne]]; [reflexivity|].
      destruct piece; [contradiction | reflexivity]. }
    rewrite Hsel. unfold piece_image. split.
    + intros a b Hset. rewrite Hset. cbn [bind].
      now rewrite frame_of_pair.
    + intros s Hset. now rewrite Hset.
Qed.

Lemma blit_parts_app (equipped : Equipped) (attack : bool) d (frame : Z)
  (parts parts' : list Slot) (image : Surface) :
  blit_parts equipped attack d frame image (parts ++ parts')
  = (image' <- blit_parts equipped attack d frame image parts ;;
     blit_parts equipped attack d frame image' parts').
Proof.
  revert image. induction parts as [|part parts IH]; intros image;
    [reflexivity|].
  cbn [app blit_parts].
  destruct (blit_part equipped attack d frame image part) as [i|e];
    [|reflexivity].
  cbn [bind]. apply IH.
Qed.

Lemma get_part_image_with_shield (equipped : Equipped) (item : Item)
  (frame : Z) :
  equipped Armleg = Some item ->
  is_equipped equipped Shield = true ->
  get_part_image equipped Right Armleg frame
  = (to_blit <- images_get RightWithShield (images item) ;;
     frame_of to_blit frame).
Proof.
  intros Hitem Hshield. unfold get_part_image, item_of.
  rewrite Hitem, Hshield. reflexivity.
Qed.

Lemma blit_part_with_shield (equipped : Equipped) (item : Item)
  (frame : Z) (image : Surface) :
  equipped Armleg = Some item ->
  is_equipped equipped Shield = true ->
  blit_part equipped false Right frame image Armleg
  = (to_blit <- images_get RightWithShield (images item) ;;
     s <- frame_of to_blit frame ;;
     Ok (blit image s)).
Proof.
  intros Hitem Hshield. unfold blit_part, is_equipped, get_part.
  rewrite Hitem, (get_part_image_with_shield equipped item frame)
    by assumption.
  destruct (images_get RightWithShield (images item)) as [to_blit|e];
    [|reflexivity].
  cbn [bind]. now destruct (frame_of to_blit frame).
Qed.

(** The normal frame facing right of a player with arms and legs and a
    shield: weapon, body and head, then the arms and legs from
    ["right_with_shield"], then the shield. *)
Lemma compose_right_with_shield (equipped : Equipped) (item : Item)
  (frame : Z) :
  equipped Armleg = Some item ->
  is_equipped equipped Shield = true ->
  blit_parts equipped false Right frame base (DRAW_ORDER Right)
  = (under <- blit_parts equipped false Right frame base
                [Weapon; Body; Head] ;;
     to_blit <- images_get RightWithShield (images item) ;;
     s <- frame_of to_blit frame ;;
     top <- get_part_image equipped Right Shield frame ;;
     Ok (blit (blit under s) top)).
Proof.
  intros Hitem Hshield.
  change (DRAW_ORDER Right) with ([Weapon; Body; Head] ++ [Armleg; Shield]).
  rewrite blit_parts_app.
  destruct (blit_parts equipped false Right frame base [Weapon; Body; Head])
    as [under|e]; [|reflexivity].
  cbn [bind blit_parts].
  rewrite (blit_part_with_shield equipped item frame under)
    by assumption.
  destruct (images_get RightWithShield (images item)) as [to_blit|e];
    [|reflexivity].
  cbn [bind]. destruct (frame_of to_blit frame) as [s|e]; [|reflexivity].
  cbn [bind]. unfold blit_part, get_part. rewrite Hshield.
  destruct (get_part_image equipped Right Shield frame) as [top|e];
    reflexivity.
Qed.

(** The attack frame facing right: weapon, body and head, then what
    attack mode returns for the arms and legs, then the shield. *)
Lemma compose_right_attack (equipped : Equipped) (item : Item)
  (frame : Z) :
  equipped Armleg = Some item ->
  blit_parts equipped true Right frame base (DRAW_ATTACK_ORDER Right)
  = (under <- blit_parts equipped true Right frame base
                [Weapon; Body; Head] ;;
     arm <- get_attack_part_image equipped Right Armleg frame ;;
     blit_parts equipped true Right frame
       match arm with
       | Some s => blit under s
       | None => under
       end
       [Shield]).
Proof.
  intros Hitem.
  change (DRAW_ATTACK_ORDER Right)
    with ([Weapon; Body; Head] ++ [Armleg; Shield]).
  rewrite blit_parts_app.
  destruct (blit_parts equipped true Right frame base [Weapon; Body; Head])
    as [under|e]; [|reflexivity].
  cbn [bind]. cbn [blit_parts]. unfold blit_part at 1.
  unfold is_equipped at 1. rewrite Hitem. unfold get_part.
  destruct (get_attack_part_image equipped Right Armleg frame)
    as [[s|]|e]; reflexivity.
Qed.

Lemma get_attack_part_image_selected (equipped : Equipped) (part : Slot)
  (item : Item) d (frame : Z) (piece : ImageDict) :
  equipped part = Some item ->
  (attack_images item = AttackNormal /\ piece = images item)
  \/ (attack_images item = AttackSet piece /\ piece <> []) ->
  get_attack_part_image equipped d part frame
  = (to_blit <- images_get (Facing d) piece ;;
     s <- frame_of to_blit frame ;;
     Ok (Some s)).
Proof.
  intros Hitem Hpiece.
  unfold get_attack_part_image, item_of. rewrite Hitem. cbn [bind].
  destruct Hpiece as [[-> ->] | [-> Hne]]; [reflexivity|].
  destruct piece; [contradiction | reflexivity].
Qed.

Lemma get_attack_part_image_none (equipped : Equipped) (part : Slot)
  (item : Item) d (frame : Z) :
  equipped part = Some item ->
  attack_images item = AttackNone \/ attack_images item = AttackSet [] ->
  get_attack_part_image equipped d part frame = Ok None.
Proof.
  intros Hitem Hnone.
  unfold get_attack_part_image, item_of. rewrite Hitem. cbn [bind].
  now destruct Hnone as [-> | ->].
Qed.

(** C3 (amended).  With a shield equipped, normal mode resolves the
    arm/leg part facing right from the item's ["right_with_shield"]
    images instead of its images for right, and the normal composition
    blits that image: the frame facing right that [make_images]
    composes in normal mode is the weapon, body and head, then the
    ["right_with_shield"] image of the frame, then the shield, for both
    frames of the clip.  Attack mode has no such override: what it
    returns for a part depends on the item in that slot alone, so it is
    the same with and without a shield, and for the arms and legs
    facing right it is the entry for right of the images
    [attack_images] selects (the item's normal images for ["normal"],
    the attack set when there is one) or nothing when the item has no
    attack images; the attack composition facing right blits just
    that between head and shield. *)
Theorem shield_override_normal_only (equipped : Equipped) (item : Item)
  (frame : Z) :
  equipped Armleg = Some item ->
  is_equipped equipped Shield = true ->
  shield_override equipped false frame
  /\ get_part_image equipped Right Armleg frame
     = (to_blit <- images_get RightWithShield (images item) ;;
        frame_of to_blit frame)
  /\ (forall image,
        blit_part equipped false Right frame image Armleg
        = (to_blit <- images_get RightWithShield (images item) ;;
           s <- frame_of to_blit frame ;;
           Ok (blit image s)))
  /\ (forall (other : Equipped) d part,
        other part = equipped part ->
        get_attack_part_image other d part frame
        = get_attack_part_image equipped d part frame)
  /\ (attack_images item = AttackNormal ->
      get_attack_part_image equipped Right Armleg frame
      = (to_blit <- images_get (Facing Right) (images item) ;;
         s <- frame_of to_blit frame ;;
         Ok (Some s)))
  /\ blit_parts equipped false Right frame base (DRAW_ORDER Right)
     = (under <- blit_parts equipped false Right frame base
                   [Weapon; Body; Head] ;;
        to_blit <- images_get RightWithShield (images item) ;;
        s <- frame_of to_blit frame ;;
        top <- get_part_image equipped Right Shield frame ;;
        Ok (blit (blit under s) top))
  /\ (forall table,
        make_images equipped false DRAW_ORDER = Ok table ->
        exists to_blit under0 s0 top0 under1 s1 top1,
          images_get RightWithShield (images item) = Ok to_blit
          /\ blit_parts equipped false Right 0 base [Weapon; Body; Head]
             = Ok under0
          /\ frame_of to_blit 0 = Ok s0
          /\ get_part_image equipped Right Shield 0 = Ok top0
          /\ blit_parts equipped false Right 1 base [Weapon; Body; Head]
             = Ok under1
          /\ frame_of to_blit 1 = Ok s1
          /\ get_part_image equipped Right Shield 1 = Ok top1
          /\ frames (dir_get Right table)
             = [blit (blit under0 s0) top0; blit (blit under1 s1) top1])
  /\ (forall piece,
        (attack_images item = AttackNormal /\ piece = images item)
        \/ (attack_images item = AttackSet piece /\ piece <> []) ->
        get_attack_part_image equipped Right Armleg frame
        = (to_blit <- images_get (Facing Right) piece ;;
           s <- frame_of to_blit frame ;;
           Ok (Some s))
        /\ blit_parts equipped true Right frame base
             (DRAW_ATTACK_ORDER Right)
           = (under <- blit_parts equipped true Right frame base
                         [Weapon; Body; Head] ;;
              to_blit <- images_get (Facing Right) piece ;;
              s <- frame_of to_blit frame ;;
              blit_parts equipped true Right frame (blit under s) [Shield]))
  /\ (attack_images item = AttackNone \/ attack_images item = AttackSet [] ->
      get_attack_part_image equipped Right Armleg frame = Ok None
      /\ blit_parts equipped true Right frame base (DRAW_ATTACK_ORDER Right)
         = (under <- blit_parts equipped true Right frame base
                       [Weapon; Body; Head] ;;
            blit_parts equipped true Right frame under [Shield])).
Proof.
  intros Hitem Hshield.
  assert (Hnormal :
    get_part_image equipped Right Armleg frame
    = (to_blit <- images_get RightWithShield (images item) ;;
       frame_of to_blit frame))
    by now apply get_part_image_with_shield.
  split; [|split; [exact Hnormal|split; [|split; [|split;
    [|split; [|split; [|split]]]]]]].
  - intros item' alternate Hitem' _ Halt.
    unfold get_part. rewrite Hnormal.
    assert (item' = item) as -> by congruence.
    rewrite Halt. reflexivity.
  - intros image. now apply blit_part_with_shield.
  - intros other d part Hsame.
    unfold get_attack_part_image, item_of. now rewrite Hsame.
  - intros Hmarker.
    apply (get_attack_part_image_selected equipped Armleg item Right frame
             (images item) Hitem).
    left. now split.
  - now apply compose_right_with_shield.
  - intros table Hmade. unfold make_images in Hmade.
    destruct (make_anim equipped false DRAW_ORDER Front) as [f|e];
      [|discriminate].
    destruct (make_anim equipped false DRAW_ORDER Back) as [b|e];
      [|discriminate].
    destruct (make_anim equipped false DRAW_ORDER Left) as [l|e];
      [|discriminate].
    destruct (make_anim equipped false DRAW_ORDER Right) as [r|e] eqn:Hr;
      [|discriminate].
    cbn [bind] in Hmade. injection Hmade as <-. cbn [dir_get at_right].
    unfold make_anim in Hr.
    rewrite !(compose_right_with_shield equipped item) in Hr by assumption.
    destruct (blit_parts equipped false Right 0 base [Weapon; Body; Head])
      as [under0|e]; [|discriminate].
    destruct (blit_parts equipped false Right 1 base [Weapon; Body; Head])
      as [under1|e].
    2: { cbn [bind] in Hr.
         destruct (images_get RightWithShield (images item)) as [t|e'];
           [|discriminate].
         cbn [bind] in Hr. destruct (frame_of t 0); [|discriminate].
         cbn [bind] in Hr.
         destruct (get_part_image equipped Right Shield 0); discriminate. }
    cbn [bind] in Hr.
    destruct (images_get RightWithShield (images item)) as [to_blit|e];
      [|discriminate].
    cbn [bind] in Hr.
    destruct (frame_of to_blit 0) as [s0|e] eqn:Hs0; [|discriminate].
    cbn [bind] in Hr.
    destruct (get_part_image equipped Right Shield 0) as [top0|e];
      [|discriminate].
    cbn [bind] in Hr.
    destruct (frame_of to_blit 1) as [s1|e] eqn:Hs1; [|discriminate].
    cbn [bind] in Hr.
    destruct (get_part_image equipped Right Shield 1) as [top1|e];
      [|discriminate].
    cbn [bind] in Hr. injection Hr as <-.
    exists to_blit, under0, s0, top0, under1, s1, top1.
    repeat split; assumption.
  - intros piece Hpiece.
    assert (Harm := get_attack_part_image_selected equipped Armleg item
                      Right frame piece Hitem Hpiece).
    split; [exact Harm|].
    rewrite (compose_right_attack equipped item frame Hitem), Harm.
    destruct (blit_parts equipped true Right frame base [Weapon; Body; Head])
      as [under|e]; [|reflexivity].
    cbn [bind].
    destruct (images_get (Facing Right) piece) as [to_blit|e];
      [|reflexivity].
    cbn [bind]. now destruct (frame_of to_blit frame).
  - intros Hnone.
    assert (Harm := get_attack_part_image_none equipped Armleg item
                      Right frame Hitem Hnone).
    split; [exact Harm|].
    rewrite (compose_right_attack equipped item frame Hitem), Harm.
    now destruct (blit_parts equipped true Right frame base
                    [Weapon; Body; Head]).
Qed.

(** ** The hit-flash generator *)

Lemma make_hit_frames_nth (frames : list Surface) (k i : nat) :
  nth_error (make_hit_frames k frames) i
  = option_map (make_hit_frame (k + i)) (nth_error frames i).
Proof.
  revert k i. induction frames as [|f frames IH]; intros k i.
  - now destruct i.
  - destruct i as [|i]; simpl.
    + now rewrite Nat.add_0_r.
    + rewrite IH. now rewrite Nat.add_succ_r.
Qed.

Lemma make_hit_frames_length (frames : list Surface) (k : nat) :
  length (make_hit_frames k frames) = length frames.
Proof.
  revert k. induction frames as [|f frames IH]; intros k; simpl;
    [reflexivity | now rewrite IH].
Qed.

Lemma boost_blue (c : Color) :
  boost 2 c = mkColor (red c) (green c) (Z.min (blue c + 150) 255) (alpha c).
Proof. reflexivity. Qed.

Lemma boost_red (c : Color) :
  boost 0 c = mkColor (Z.min (red c + 150) 255) (green c) (blue c) (alpha c).
Proof. reflexivity. Qed.

(** C2 (amended).  For the clip of every direction and every frame
    index [i] of it, the hit-flash frame [i] is made from the frame [i]
    of the clip: the frame is blitted on a filled surface and reduced
    to a palette, and every palette entry has one channel raised by
    150 and clamped to 255.  The channel is blue at frame index 0 and
    red at every other frame index, and the colour key of the frame is
    the fill colour with that channel raised. *)
Theorem hit_flash_frame (from_dict : DirTable Anim) d (i : nat)
  (frame : Surface) :
  nth_error (frames (dir_get d from_dict)) i = Some frame ->
  let index := if Nat.eqb i 0 then 2%nat else 0%nat in
  let image := reduce frame in
  nth_error (frames (dir_get d (make_hit_images from_dict))) i
  = Some (set_colorkey (hit_colorkey i)
            (set_palette (map (boost index) (get_palette image)) image))
  /\ length (frames (dir_get d (make_hit_images from_dict)))
     = length (frames (dir_get d from_dict))
  /\ (forall c,
        boost 2 c
        = mkColor (red c) (green c) (Z.min (blue c + 150) 255) (alpha c))
  /\ (forall c,
        boost 0 c
        = mkColor (Z.min (red c + 150) 255) (green c) (blue c) (alpha c))
  /\ hit_colorkey i = boost index (rgb 85 0 85).
Proof.
  intros Hframe index image.
  assert (Hclip : dir_get d (make_hit_images from_dict)
                  = make_hit_anim (dir_get d from_dict))
    by now destruct d.
  rewrite Hclip. simpl frames.
  split;
    [|split; [apply make_hit_frames_length
             |split; [reflexivity | split; [reflexivity|]]]].
  2: { unfold index. now destruct i. }
  rewrite make_hit_frames_nth, Hframe. simpl.
  unfold make_hit_frame, hit_palette, index, image. now destruct i.
Qed.

(** ** Clips *)

Lemma make_anim_clip (equipped : Equipped) (attack : bool)
  (order : Direction -> list Slot) d (a : Anim) :
  make_anim equipped attack order d = Ok a ->
  exists frame0 frame1,
    a = Anim_new [frame0; frame1] STANDARD_ANIMATION_FPS unbounded.
Proof.
  unfold make_anim.
  destruct (blit_parts equipped attack d 0 base (order d)) as [f0|e];
    [|discriminate].
  destruct (blit_parts equipped attack d 1 base (order d)) as [f1|e];
    [|discriminate].
  simpl. intros [= <-]. now exists f0, f1.
Qed.

Lemma make_images_clips (equipped : Equipped) (attack : bool)
  (order : Direction -> list Slot) (table : DirTable Anim) d :
  make_images equipped attack order = Ok table ->
  exists frame0 frame1,
    dir_get d table
    = Anim_new [frame0; frame1] STANDARD_ANIMATION_FPS unbounded.
Proof.
  unfold make_images.
  destruct (make_anim equipped attack order Front) as [f|e] eqn:Hf;
    [|discriminate].
  destruct (make_anim equipped attack order Back) as [b|e] eqn:Hb;
    [|discriminate].
  destruct (make_anim equipped attack order Left) as [l|e] eqn:Hl;
    [|discriminate].
  destruct (make_anim equipped attack order Right) as [r|e] eqn:Hr;
    [|discriminate].
  simpl. intros [= <-].
  destruct d; simpl; eauto using make_anim_clip.
Qed.

Lemma Anim_advance_done (a : Anim) :
  done a = true -> Anim_advance a = a.
Proof. unfold Anim_advance. now intros ->. Qed.

Lemma iter_advance_done (a : Anim) (n : nat) :
  done a = true -> Nat.iter n Anim_advance a = a.
Proof.
  intros Hdone. induction n as [|n IH]; simpl; [reflexivity|].
  rewrite IH. now apply Anim_advance_done.
Qed.

Lemma Anim_advance_unbounded (a : Anim) :
  loops a = None -> done a = false ->
  loops (Anim_advance a) = None /\ done (Anim_advance a) = false.
Proof.
  intros Hloops Hdone. unfold Anim_advance. rewrite Hdone, Hloops.
  now destruct (_ <? _)%nat.
Qed.

Lemma iter_advance_unbounded (a : Anim) (n : nat) :
  loops a = None -> done a = false ->
  loops (Nat.iter n Anim_advance a) = None
  /\ done (Nat.iter n Anim_advance a) = false.
Proof.
  intros Hloops Hdone. induction n as [|n [IHl IHd]]; simpl;
    [now split | now apply Anim_advance_unbounded].
Qed.

Lemma playing_step (n budget : nat) (a : Anim) (k : nat) :
  playing n budget a k ->
  (S k < budget * n)%nat ->
  playing n budget (Anim_advance a) (S k).
Proof.
  intros (Hdone & Hlen & Hloops & Hidx & Hk) Hlt.
  unfold playing, Anim_advance. rewrite Hdone, Hlen, Hloops.
  destruct (Nat.ltb_spec (S (frame_index a)) n) as [Hin|Hout]; simpl.
  - repeat split; try reflexivity; try assumption; lia.
  - destruct (Nat.leb_spec budget (S (loop_count a))) as [Hle|Hgt]; simpl.
    + exfalso.
      pose proof (Nat.mul_le_mono_r _ _ n Hle) as Hm.
      rewrite Nat.mul_succ_l in Hm. lia.
    + repeat split; try reflexivity; try assumption; lia.
Qed.

Lemma playing_last (n budget : nat) (a : Anim) (k : nat) :
  playing n budget a k ->
  S k = (budget * n)%nat ->
  done (Anim_advance a) = true.
Proof.
  intros (Hdone & Hlen & Hloops & Hidx & Hk) Hlast.
  unfold Anim_advance. rewrite Hdone, Hlen, Hloops.
  destruct (Nat.ltb_spec (S (frame_index a)) n) as [Hin|Hout]; simpl.
  - exfalso. destruct (Nat.le_gt_cases budget (loop_count a)) as [Hle|Hgt].
    + pose proof (Nat.mul_le_mono_r _ _ n Hle) as Hm. lia.
    + pose proof (Nat.mul_le_mono_r _ _ n Hgt) as Hm.
      rewrite Nat.mul_succ_l in Hm. lia.
  - destruct (Nat.leb_spec budget (S (loop_count a))) as [Hle|Hgt]; simpl.
    + reflexivity.
    + exfalso. pose proof (Nat.mul_le_mono_r _ _ n Hgt) as Hm.
      rewrite !Nat.mul_succ_l in Hm. lia.
Qed.

Lemma playing_iter (n budget : nat) (a : Anim) (k : nat) :
  playing n budget a 0 ->
  (k < budget * n)%nat ->
  playing n budget (Nat.iter k Anim_advance a) k.
Proof.
  intros Hstart. induction k as [|k IH]; intros Hlt; [assumption|].
  simpl. apply playing_step; [apply IH; lia | assumption].
Qed.

(** A fresh finite clip is done after exactly [budget * n] frame
    periods, and stays done. *)
Lemma finite_clip_done (n budget : nat) (a : Anim) (m : nat) :
  playing n budget a 0 ->
  (0 < budget * n)%nat ->
  done (Nat.iter m Anim_advance a) = true <-> (budget * n <= m)%nat.
Proof.
  intros Hstart Hpos. split.
  - intros Hdone. destruct (Nat.le_gt_cases (budget * n) m) as [|Hlt];
      [assumption|].
    destruct (playing_iter n budget a m Hstart Hlt) as [Hnot _].
    congruence.
  - intros Hle.
    destruct (budget * n)%nat as [|k] eqn:Hbn; [lia|].
    assert (Hk : done (Nat.iter (S k) Anim_advance a) = true).
    { simpl. apply (playing_last n budget _ k); [|lia].
      apply playing_iter; [assumption | lia]. }
    replace m with ((m - S k) + S k)%nat by lia.
    rewrite Nat.iter_add. now rewrite iter_advance_done.
Qed.

Lemma make_hit_images_clip (from_dict : DirTable Anim) d :
  dir_get d (make_hit_images from_dict)
  = Anim_new (make_hit_frames 0 (frames (dir_get d from_dict)))
      HIT_ANIMATION_FPS (Some 10%nat).
Proof. now destruct d. Qed.

(** C9.  Every clip the hit-flash generator makes is built at 20 frames
    per second with a loop budget of 10.  For the clips [make_images]
    composes, which have two frames, are built at 7 frames per second
    and never become done, the hit-flash clip of each direction plays
    at the higher rate, is done after its 10 repetitions and not
    before, stays done from then on, and after a reset is not done and
    back at frame 0 with its loop counter restored. *)
Theorem hit_clips_finite_and_faster (equipped : Equipped) (attack : bool)
  (order : Direction -> list Slot) (table : DirTable Anim) d :
  make_images equipped attack order = Ok table ->
  let composited := dir_get d table in
  let flash := dir_get d (make_hit_images table) in
  (forall (from_dict : DirTable Anim) d',
     fps (dir_get d' (make_hit_images from_dict)) = 20 # 1
     /\ loops (dir_get d' (make_hit_images from_dict)) = Some 10%nat)
  /\ fps composited = 7 # 1
  /\ loops composited = None
  /\ (forall n, done (Nat.iter n Anim_advance composited) = false)
  /\ (fps composited < fps flash)%Q
  /\ length (frames flash) = 2%nat
  /\ (forall n,
        done (Nat.iter n Anim_advance flash) = true <-> (10 * 2 <= n)%nat)
  /\ (forall n,
        let again := Anim_reset (Nat.iter n Anim_advance flash) in
        done again = false
        /\ frame_index again = 0%nat
        /\ loop_count again = 0%nat).
Proof.
  intros Hmade composited flash.
  destruct (make_images_clips equipped attack order table d Hmade)
    as (f0 & f1 & Hclip).
  assert (Hflash :
    flash = Anim_new (make_hit_frames 0 [f0; f1]) HIT_ANIMATION_FPS
              (Some 10%nat)).
  { unfold flash. rewrite make_hit_images_clip. fold composited.
    unfold composited. now rewrite Hclip. }
  fold composited in Hclip.
  split; [|split; [|split; [|split; [|split; [|split; [|split]]]]]].
  - intros from_dict d'. rewrite make_hit_images_clip. now split.
  - now rewrite Hclip.
  - now rewrite Hclip.
  - intros n. rewrite Hclip. now apply iter_advance_unbounded.
  - rewrite Hclip, Hflash. reflexivity.
  - now rewrite Hflash.
  - intros n. rewrite Hflash. apply finite_clip_done; [|lia].
    unfold playing. simpl. repeat split. lia.
  - intros n. simpl. now repeat split.
Qed.

End Properties.

(** * The model at work

    The theorems above, applied to the sample player and equipment on
    one-pixel surfaces, and the inputs at which two descriptions part
    from the code. *)

(** The sample player is the one [Player.__init__] builds from the
    sample equipment. *)
Lemma sample_player_init :
  Player_init (H := one_pixel) Back sample_equipped tt = Ok sample_player.
Proof. vm_compute. reflexivity. Qed.

(** A first hit of 5 on the fresh player takes the health from 28 to 0
    and starts the hit state; a second hit then changes nothing. *)
Lemma got_hit_once_witness :
  health (got_hit 5 sample_player) = 0
  /\ hit_state (got_hit 5 sample_player) = true
  /\ got_hit 7 (got_hit 5 sample_player) = got_hit 5 sample_player.
Proof.
  destruct (got_hit_once (H := one_pixel) sample_player 5) as [Hfirst _].
  destruct (Hfirst eq_refl) as (_ & Hhealth & Hstate).
  destruct (got_hit_once (H := one_pixel) (got_hit 5 sample_player) 7)
    as [_ Hsecond].
  split; [exact Hhealth|]. split; [exact Hstate|].
  apply Hsecond. exact Hstate.
Defined.

(** Up and right down, up released: the stack is [[Right]].  Pressing
    up, right, up then leaves up ([Back]) last, and releasing up leaves
    right. *)
Lemma direction_stack_rollover_witness :
  let p :=
    handle_all (H := one_pixel) [Press 273; Press 275; Release 273]
      sample_player in
  let pressed :=
    add_direction 273 (add_direction 275 (add_direction 273 p)) in
  NoDup (direction_stack p)
  /\ direction_stack pressed = [Right; Back]
  /\ direction_stack (pop_direction 273 pressed) = [Right].
Proof.
  intros p pressed.
  destruct (direction_stack_rollover (H := one_pixel) sample_player
              [Press 273; Press 275; Release 273] eq_refl)
    as (Hnodup & _ & Hroll).
  split; [exact Hnodup|].
  assert (Hne : Back <> Right) by discriminate.
  exact (Hroll 273 275 Back Right eq_refl eq_refl Hne).
Defined.

(** The space bar is not bound. *)
Lemma unbound_key_ignored_witness :
  add_direction (H := one_pixel) 32 sample_player = sample_player
  /\ pop_direction (H := one_pixel) 32 sample_player = sample_player.
Proof.
  apply (unbound_key_ignored (H := one_pixel) sample_player 32);
    [reflexivity | simpl; lia ..].
Defined.

(** The sample weapon is not attacking: a player in the attack state
    goes back to normal. *)
Lemma attack_ends_witness :
  exists p',
    check_states (H := one_pixel) (set_action_state Attack sample_player)
    = Ok p'
    /\ action_state p' = Normal
    /\ redraw p' = true.
Proof.
  apply (attack_ends (H := one_pixel)
           (set_action_state Attack sample_player) sample_weapon);
    reflexivity.
Defined.

(** The fresh player has its redraw flag set and gets an image; an idle
    player without the flag keeps the image it has. *)
Lemma adjust_frames_selects_witness :
  image (adjust_frames (H := one_pixel) sample_get_next_frame 100
           sample_player)
  = Some (px 10 0 0)
  /\ image (adjust_frames (H := one_pixel) sample_get_next_frame 100
              (set_redraw false sample_player))
     = None.
Proof.
  destruct (adjust_frames_selects (H := one_pixel) sample_get_next_frame
              100 sample_player)
    as (_ & _ & Hquery & _).
  destruct (Hquery (or_intror (or_intror eq_refl))) as (Himage & _).
  destruct (adjust_frames_selects (H := one_pixel) sample_get_next_frame
              100 (set_redraw false sample_player))
    as (_ & _ & _ & Hkeep & _).
  destruct (Hkeep eq_refl eq_refl eq_refl) as (Hidle & _).
  split; [exact Himage | exact Hidle].
Defined.

(** The sample head reuses its normal image while attacking; the sample
    weapon has no attack images and is left out. *)
Lemma attack_part_image_cases_witness :
  get_attack_part_image (H := one_pixel) sample_equipped Front Head 0
  = Ok (Some (px 10 0 0))
  /\ get_attack_part_image (H := one_pixel) sample_equipped Front Weapon 0
     = Ok None.
Proof.
  split.
  - exact (proj1 (attack_part_image_cases (H := one_pixel) sample_equipped
                    Head sample_head Front 0 eq_refl) eq_refl).
  - apply (attack_part_image_cases (H := one_pixel) sample_equipped
             Weapon sample_weapon Front 0 eq_refl).
    left. reflexivity.
Defined.

(** The sample body has a pair of images, the sample head a single
    one. *)
Lemma part_image_pair_or_single_witness :
  get_part_image (H := one_pixel) sample_equipped Front Body 1
  = Ok (px 20 1 0)
  /\ get_part_image (H := one_pixel) sample_equipped Front Head 1
     = Ok (px 10 0 0).
Proof.
  destruct (part_image_pair_or_single (H := one_pixel) sample_equipped
              Body sample_body Front 1 eq_refl (or_intror eq_refl))
    as (Hpair & _).
  destruct (part_image_pair_or_single (H := one_pixel) sample_equipped
              Head sample_head Front 1 eq_refl (or_intror eq_refl))
    as (_ & Hsingle & _).
  split.
  - exact (Hpair (px 20 0 0) (px 20 1 0) eq_refl).
  - exact (Hsingle (px 10 0 0) eq_refl).
Defined.

(** With the sample shield, the arms and legs facing right come from
    ["right_with_shield"] in normal mode. *)
Lemma shield_override_normal_only_witness :
  get_part_image (H := one_pixel) sample_equipped Right Armleg 0
  = Ok (px 45 0 0)
  /\ frames (dir_get Right (normal_anims (standard sample_animations)))
     = [Pixel_blit (Pixel_blit (px 10 0 0) (px 45 0 0)) (px 50 0 0);
        Pixel_blit (Pixel_blit (px 10 0 0) (px 45 1 0)) (px 50 0 0)]
  /\ get_attack_part_image (H := one_pixel) sample_equipped_swing Right
       Armleg 0
     = Ok (Some (px 60 0 0)).
Proof.
  destruct (shield_override_normal_only (H := one_pixel) sample_equipped
              sample_armleg 0 eq_refl eq_refl)
    as (_ & Hnormal & _ & _ & _ & _ & Hmade & _).
  destruct (Hmade (normal_anims (standard sample_animations)))
    as (to_blit & under0 & s0 & top0 & under1 & s1 & top1
        & Hset & Hu0 & Hs0 & Ht0 & Hu1 & Hs1 & Ht1 & Hframes).
  { vm_compute. reflexivity. }
  destruct (shield_override_normal_only (H := one_pixel)
              sample_equipped_swing sample_armleg_swing 0 eq_refl eq_refl)
    as (_ & _ & _ & _ & _ & _ & _ & Hswing & _).
  destruct (Hswing (all_facing (@Frames one_pixel [px 60 0 0; px 60 1 0])))
    as [Harm _].
  { right. split; [reflexivity | discriminate]. }
  split; [exact Hnormal|]. split; [|exact Harm].
  rewrite Hframes.
  vm_compute in Hset. injection Hset as <-.
  vm_compute in Hu0, Hs0, Ht0, Hu1, Hs1, Ht1.
  injection Hu0 as <-. injection Hs0 as <-. injection Ht0 as <-.
  injection Hu1 as <-. injection Hs1 as <-. injection Ht1 as <-.
  reflexivity.
Defined.

(** In attack mode the override does not take place: with the sample
    shield equipped, arms and legs that reuse their normal images are
    resolved from the images for right, and arms and legs with attack
    images from those. *)
Lemma shield_override_not_in_attack :
  ~ shield_override (H := one_pixel) sample_equipped true 0
  /\ ~ shield_override (H := one_pixel) sample_equipped_swing true 0.
Proof.
  split; intros Hclaim.
  - specialize (Hclaim sample_armleg
                  (@Frames one_pixel [px 45 0 0; px 45 1 0])
                  eq_refl eq_refl eq_refl).
    vm_compute in Hclaim. discriminate.
  - specialize (Hclaim sample_armleg_swing
                  (@Frames one_pixel [px 45 0 0; px 45 1 0])
                  eq_refl eq_refl eq_refl).
    vm_compute in Hclaim. discriminate.
Qed.

(** The first hit-flash frame of the sample player facing front. *)
Lemma hit_flash_frame_witness :
  nth_error
    (frames (dir_get Front
               (make_hit_images (H := one_pixel)
                  (normal_anims (standard sample_animations))))) 0
  = Some (mkPixel (rgb 50 0 150) (Some (rgb 85 0 235))).
Proof.
  exact (proj1 (hit_flash_frame (H := one_pixel)
                  (normal_anims (standard sample_animations)) Front 0
                  (px 50 0 0) eq_refl)).
Defined.

(** At frame index 0, which is even, the generator raises blue, not
    red: the frame it makes is not the one described. *)
Lemma hit_flash_frame_not_described :
  make_hit_frame (H := one_pixel) 0 (px 50 0 0)
  <> described_hit_frame (H := one_pixel) 0 (px 50 0 0)
  /\ nth_error
       (frames (dir_get Front
                  (make_hit_images (H := one_pixel)
                     (normal_anims (standard sample_animations))))) 0
     <> Some (described_hit_frame (H := one_pixel) 0 (px 50 0 0)).
Proof.
  split; intros Heq; vm_compute in Heq; discriminate.
Qed.

(** The clips of the sample player facing front. *)
Lemma hit_clips_finite_and_faster_witness :
  let composited :=
    dir_get Front (normal_anims (standard sample_animations)) in
  let flash :=
    dir_get Front
      (make_hit_images (H := one_pixel)
         (normal_anims (standard sample_animations))) in
  (fps composited < fps flash)%Q
  /\ loops composited = None
  /\ done (Nat.iter 20 Anim_advance flash) = true
  /\ done (Nat.iter 19 Anim_advance flash) <> true.
Proof.
  intros composited flash.
  assert (Hmade :
    make_images (H := one_pixel) sample_equipped false DRAW_ORDER
    = Ok (normal_anims (standard sample_animations)))
    by (vm_compute; reflexivity).
  destruct (hit_clips_finite_and_faster (H := one_pixel) sample_equipped
              false DRAW_ORDER (normal_anims (standard sample_animations))
              Front Hmade)
    as (_ & _ & Hloops & _ & Hfaster & _ & Hdone & _).
  split; [exact Hfaster|]. split; [exact Hloops|]. split.
  - apply Hdone. simpl. lia.
  - intros Hearly. apply Hdone in Hearly. simpl in Hearly. lia.
Defined.

(** * Further properties of the compositor *)

Section Compositing.

Context `{Pygame}.

Lemma empty_slot (equipped : Equipped) (attack : bool) (d : Direction)
  (frame : Z) (image : Surface) (part : Slot) :
  equipped part = None ->
  get_part_image equipped d part frame = Raise AttributeError
  /\ get_attack_part_image equipped d part frame = Raise AttributeError
  /\ blit_part equipped attack d frame image part = Ok image.
Proof.
  intros Hnone.
  unfold get_part_image, get_attack_part_image, blit_part, item_of,
    is_equipped.
  rewrite Hnone. now repeat split.
Qed.

Lemma blit_parts_nothing (equipped : Equipped) (attack : bool)
  (d : Direction) (frame : Z) (image : Surface) (parts : list Slot) :
  (forall part, equipped part = None) ->
  blit_parts equipped attack d frame image parts = Ok image.
Proof.
  intros Hnone. induction parts as [|part parts IH]; simpl; [reflexivity|].
  destruct (empty_slot equipped attack d frame image part (Hnone part))
    as (_ & _ & ->).
  exact IH.
Qed.

(** X1.  With every slot empty the compositor does not fail, whatever
    the mode and the draw order: the two frames of every direction are
    the bare surface filled with its colour key. *)
Theorem nothing_equipped_composes (equipped : Equipped) (attack : bool)
  (order : Direction -> list Slot) :
  (forall part, equipped part = None) ->
  let bare := Anim_new [base; base] STANDARD_ANIMATION_FPS unbounded in
  make_images equipped attack order = Ok (mkDirTable bare bare bare bare).
Proof.
  intros Hnone bare. unfold make_images, make_anim.
  now rewrite !blit_parts_nothing by assumption.
Qed.

Lemma getitem_cases {A : Type} (l : list A) (i : Z) :
  let n := Z.of_nat (length l) in
  (n <= i \/ i < - n -> getitem l i = Raise IndexError)
  /\ (0 <= i < n ->
      exists a, nth_error l (Z.to_nat i) = Some a /\ getitem l i = Ok a)
  /\ (- n <= i < 0 ->
      exists a,
        nth_error l (Z.to_nat (n + i)) = Some a /\ getitem l i = Ok a).
Proof.
  intros n. unfold getitem. fold n.
  assert (Hnth : forall j, 0 <= j < n ->
            exists a, nth_error l (Z.to_nat j) = Some a).
  { intros j Hj.
    destruct (nth_error l (Z.to_nat j)) as [a|] eqn:Hget; [now exists a|].
    apply nth_error_None in Hget. unfold n in Hj. lia. }
  split; [|split].
  - intros Hout. destruct (Z.ltb_spec i 0) as [Hneg|Hpos].
    + destruct (Z.leb_spec 0 (i + n)) as [Hlow|Hlow]; simpl.
      * destruct Hout as [Hout|Hout]; [|lia]. lia.
      * reflexivity.
    + destruct (Z.leb_spec 0 i) as [_|Hlow]; [|lia]. simpl.
      destruct (Z.ltb_spec i n) as [Hin|_]; [lia | reflexivity].
  - intros Hin. destruct (Z.ltb_spec i 0) as [Hneg|_]; [lia|].
    destruct (Z.leb_spec 0 i) as [_|Hlow]; [|lia]. simpl.
    destruct (Z.ltb_spec i n) as [_|Hhigh]; [|lia].
    destruct (Hnth i Hin) as [a Ha]. exists a. now rewrite Ha.
  - intros Hin. destruct (Z.ltb_spec i 0) as [_|Hpos]; [|lia].
    destruct (Z.leb_spec 0 (i + n)) as [_|Hlow]; [|lia]. simpl.
    destruct (Z.ltb_spec (i + n) n) as [_|Hhigh]; [|lia].
    destruct (Hnth (n + i)) as [a Ha]; [lia|].
    exists a. replace (i + n) with (n + i) by lia. now rewrite Ha.
Qed.

(** X2.  When the images of an equipped part are a sequence, a frame
    index past its end, or below minus its length, raises
    [IndexError]: the [except TypeError] clause does not catch it, so a
    one-element sequence is not taken for a single image.  An index
    from 0 counts from the start, and a negative one from the end. *)
Theorem sequence_index (equipped : Equipped) (part : Slot) (item : Item)
  (d : Direction) (frame : Z) (l : list Surface) :
  equipped part = Some item ->
  let key :=
    if Slot_eqb part Armleg && Direction_eqb d Right
       && is_equipped equipped Shield
    then RightWithShield else Facing d in
  images_get key (images item) = Ok (Frames l) ->
  let n := Z.of_nat (length l) in
  (n <= frame \/ frame < - n ->
   get_part_image equipped d part frame = Raise IndexError)
  /\ (0 <= frame < n ->
      exists s,
        nth_error l (Z.to_nat frame) = Some s
        /\ get_part_image equipped d part frame = Ok s)
  /\ (- n <= frame < 0 ->
      exists s,
        nth_error l (Z.to_nat (n + frame)) = Some s
        /\ get_part_image equipped d part frame = Ok s).
Proof.
  intros Hitem key Hset n.
  assert (Hnormal :
    get_part_image equipped d part frame = getitem l frame).
  { unfold get_part_image, item_of. rewrite Hitem. cbn [bind].
    fold key.
    replace (if Slot_eqb part Armleg && Direction_eqb d Right
                && is_equipped equipped Shield
             then images_get RightWithShield (images item)
             else images_get (Facing d) (images item))
      with (images_get key (images item))
      by (unfold key; now destruct (_ && _ && _)).
    now rewrite Hset. }
  rewrite Hnormal. apply getitem_cases.
Qed.

Lemma draw_orders_In (d : Direction) (part : Slot) :
  In part (DRAW_ORDER d) /\ In part (DRAW_ATTACK_ORDER d).
Proof. destruct d, part; simpl; intuition. Qed.

(** X3.  Every draw order, normal or attack, lists each of the five
    slots exactly once, so that every equipped part is blitted once
    for a frame; and the orders for left and for right are the same
    in both modes. *)
Theorem draw_orders_cover (d : Direction) :
  NoDup (DRAW_ORDER d)
  /\ NoDup (DRAW_ATTACK_ORDER d)
  /\ (forall part, In part (DRAW_ORDER d) /\ In part (DRAW_ATTACK_ORDER d))
  /\ (d = Left \/ d = Right -> DRAW_ATTACK_ORDER d = DRAW_ORDER d).
Proof.
  split; [|split; [|split]].
  - destruct d; simpl; repeat constructor; simpl; intuition discriminate.
  - destruct d; simpl; repeat constructor; simpl; intuition discriminate.
  - apply draw_orders_In.
  - intros [-> | ->]; reflexivity.
Qed.

Lemma blit_part_succeeds (equipped : Equipped) (attack : bool)
  (d : Direction) (frame : Z) (image : Surface) (part : Slot) :
  (exists image', blit_part equipped attack d frame image part = Ok image')
  <-> (is_equipped equipped part = true ->
       exists r, get_part equipped attack d part frame = Ok r).
Proof.
  unfold blit_part. destruct (is_equipped equipped part).
  - destruct (get_part equipped attack d part frame) as [[s|]|e]; simpl.
    + split; eauto.
    + split; eauto.
    + split.
      * intros [image' Himage]. discriminate.
      * intros Hres. destruct (Hres eq_refl) as [r Hr]. discriminate.
  - split; [intros _ Hfalse; discriminate | eauto].
Qed.

Lemma blit_parts_succeeds (equipped : Equipped) (attack : bool)
  (d : Direction) (frame : Z) (parts : list Slot) (image : Surface) :
  (exists image', blit_parts equipped attack d frame image parts = Ok image')
  <-> (forall part,
         In part parts ->
         is_equipped equipped part = true ->
         exists r, get_part equipped attack d part frame = Ok r).
Proof.
  revert image. induction parts as [|part parts IH]; intros image; simpl.
  - split; [intros _ part [] | eauto].
  - split.
    + intros [image' Himage] part' [<- | Hin] Heq.
      * apply (blit_part_succeeds equipped attack d frame image part);
          [|assumption].
        destruct (blit_part equipped attack d frame image part) as [i|e];
          [eauto | discriminate].
      * destruct (blit_part equipped attack d frame image part) as [i|e];
          [|discriminate].
        simpl in Himage.
        apply (proj1 (IH i)); eauto.
    + intros Hall.
      destruct (proj2 (blit_part_succeeds equipped attack d frame image part))
        as [i Hi].
      { intros Heq. apply Hall; [now left | assumption]. }
      rewrite Hi. simpl. apply IH. intros part' Hin. apply Hall. now right.
Qed.

Lemma make_anim_succeeds (equipped : Equipped) (attack : bool)
  (order : Direction -> list Slot) (d : Direction) :
  (exists a, make_anim equipped attack order d = Ok a)
  <-> (forall part frame,
         In part (order d) ->
         is_equipped equipped part = true ->
         frame = 0 \/ frame = 1 ->
         exists r, get_part equipped attack d part frame = Ok r).
Proof.
  unfold make_anim. split.
  - intros [a Ha] part frame Hin Heq Hframe.
    destruct (blit_parts equipped attack d 0 base (order d)) as [f0|e]
      eqn:H0; [|discriminate].
    destruct (blit_parts equipped attack d 1 base (order d)) as [f1|e]
      eqn:H1; [|discriminate].
    destruct Hframe as [-> | ->].
    + apply (proj1 (blit_parts_succeeds equipped attack d 0 (order d) base));
        eauto.
    + apply (proj1 (blit_parts_succeeds equipped attack d 1 (order d) base));
        eauto.
  - intros Hall.
    destruct (proj2 (blit_parts_succeeds equipped attack d 0 (order d) base))
      as [f0 H0]; [intros; apply Hall; auto|].
    destruct (proj2 (blit_parts_succeeds equipped attack d 1 (order d) base))
      as [f1 H1]; [intros; apply Hall; auto|].
    rewrite H0, H1. simpl. eauto.
Qed.

Lemma make_images_succeeds (equipped : Equipped) (attack : bool)
  (order : Direction -> list Slot) :
  (exists table, make_images equipped attack order = Ok table)
  <-> (forall d part frame,
         In part (order d) ->
         is_equipped equipped part = true ->
         frame = 0 \/ frame = 1 ->
         exists r, get_part equipped attack d part frame = Ok r).
Proof.
  unfold make_images. split.
  - intros [table Htable] d.
    destruct (make_anim equipped attack order Front) as [f|e] eqn:Hf;
      [|discriminate].
    destruct (make_anim equipped attack order Back) as [b|e] eqn:Hb;
      [|discriminate].
    destruct (make_anim equipped attack order Left) as [l|e] eqn:Hl;
      [|discriminate].
    destruct (make_anim equipped attack order Right) as [r|e] eqn:Hr;
      [|discriminate].
    destruct d; apply make_anim_succeeds; eauto.
  - intros Hall.
    destruct (proj2 (make_anim_succeeds equipped attack order Front)
                (Hall Front)) as [f ->].
    destruct (proj2 (make_anim_succeeds equipped attack order Back)
                (Hall Back)) as [b ->].
    destruct (proj2 (make_anim_succeeds equipped attack order Left)
                (Hall Left)) as [l ->].
    destruct (proj2 (make_anim_succeeds equipped attack order Right)
                (Hall Right)) as [r ->].
    simpl. eauto.
Qed.

(** X4.  [make_all_animations] returns the table exactly when every
    equipped part resolves, for every direction and both frame
    indices, in normal mode and in attack mode; otherwise it raises.
    Empty slots put no condition. *)
Theorem make_all_animations_succeeds (equipped : Equipped) :
  (exists all, make_all_animations equipped = Ok all)
  <-> (forall d part frame,
         is_equipped equipped part = true ->
         frame = 0 \/ frame = 1 ->
         (exists s, get_part_image equipped d part frame = Ok s)
         /\ (exists r, get_attack_part_image equipped d part frame = Ok r)).
Proof.
  unfold make_all_animations. split.
  - intros [all Hall] d part frame Heq Hframe.
    destruct (make_images equipped false DRAW_ORDER) as [normal|e]
      eqn:Hnormal; [|discriminate].
    destruct (make_images equipped true DRAW_ATTACK_ORDER) as [attack|e]
      eqn:Hattack; [|discriminate].
    destruct (draw_orders_In d part) as [Hin1 Hin2].
    split.
    + destruct (proj1 (make_images_succeeds equipped false DRAW_ORDER)
                  (ex_intro _ normal Hnormal) d part frame Hin1 Heq Hframe)
        as [r Hr].
      unfold get_part in Hr.
      destruct (get_part_image equipped d part frame) as [s|e];
        [eauto | discriminate].
    + exact (proj1 (make_images_succeeds equipped true DRAW_ATTACK_ORDER)
               (ex_intro _ attack Hattack) d part frame Hin2 Heq Hframe).
  - intros Hall.
    destruct (proj2 (make_images_succeeds equipped false DRAW_ORDER))
      as [normal ->].
    { intros d part frame _ Heq Hframe.
      destruct (Hall d part frame Heq Hframe) as [[s Hs] _].
      unfold get_part. rewrite Hs. simpl. eauto. }
    destruct (proj2 (make_images_succeeds equipped true DRAW_ATTACK_ORDER))
      as [attack ->].
    { intros d part frame _ Heq Hframe.
      destruct (Hall d part frame Heq Hframe) as [_ Hr]. exact Hr. }
    simpl. eauto.
Qed.

(** X5.  In the table [make_all_animations] returns, every hit-flash
    clip is made from the composited clip of the same action and
    direction, and every clip, composited or hit-flash, has two frames
    and starts at frame 0, not done. *)
Theorem strobing_from_standard (equipped : Equipped) (all : AllAnimations)
  (action : ActionState) (d : Direction) :
  make_all_animations equipped = Ok all ->
  anim_at all true action d = make_hit_anim (anim_at all false action d)
  /\ (forall hit,
        length (frames (anim_at all hit action d)) = 2%nat
        /\ frame_index (anim_at all hit action d) = 0%nat
        /\ done (anim_at all hit action d) = false).
Proof.
  unfold make_all_animations.
  destruct (make_images equipped false DRAW_ORDER) as [normal|e]
    eqn:Hnormal; [|discriminate].
  destruct (make_images equipped true DRAW_ATTACK_ORDER) as [attack|e]
    eqn:Hattack; [|discriminate].
  simpl. intros [= <-].
  assert (Hstd : exists f0 f1,
            anim_at (mkAllAnimations (mkAnimations normal attack)
                       (mkAnimations (make_hit_images normal)
                          (make_hit_images attack))) false action d
            = Anim_new [f0; f1] STANDARD_ANIMATION_FPS unbounded).
  { unfold anim_at. destruct action; simpl;
      eauto using make_images_clips. }
  assert (Hhit :
    anim_at (mkAllAnimations (mkAnimations normal attack)
               (mkAnimations (make_hit_images normal)
                  (make_hit_images attack))) true action d
    = make_hit_anim
        (anim_at (mkAllAnimations (mkAnimations normal attack)
                    (mkAnimations (make_hit_images normal)
                       (make_hit_images attack))) false action d)).
  { unfold anim_at. destruct action, d; reflexivity. }
  split; [exact Hhit|].
  destruct Hstd as (f0 & f1 & Hstd).
  intros [|]; [rewrite Hhit|]; rewrite Hstd; now repeat split.
Qed.

Lemma blit_parts_modes (equipped : Equipped) (d : Direction) (frame : Z)
  (parts : list Slot) (image : Surface) :
  (forall part,
     In part parts ->
     is_equipped equipped part = true ->
     get_part equipped true d part frame
     = get_part equipped false d part frame) ->
  blit_parts equipped true d frame image parts
  = blit_parts equipped false d frame image parts.
Proof.
  revert image. induction parts as [|part parts IH]; intros image Hsame;
    simpl; [reflexivity|].
  assert (Hpart : blit_part equipped true d frame image part
                  = blit_part equipped false d frame image part).
  { unfold blit_part. destruct (is_equipped equipped part) eqn:Heq;
      [|reflexivity].
    rewrite Hsame; [reflexivity | now left | assumption]. }
  rewrite Hpart.
  destruct (blit_part equipped false d frame image part) as [i|e];
    [|reflexivity].
  simpl. apply IH. intros part' Hin. apply Hsame. now right.
Qed.

(** X6.  When every equipped item reuses its normal images for the
    attack, the attack composition facing left is the normal one, and
    so is the one facing right unless a shield is equipped together
    with arms and legs: only there does normal mode use the images for
    ["right_with_shield"], which attack mode never reads. *)
Theorem attack_composition_as_normal (equipped : Equipped) (d : Direction) :
  (forall part item,
     equipped part = Some item -> attack_images item = AttackNormal) ->
  d = Left
  \/ (d = Right
      /\ (is_equipped equipped Armleg = false
          \/ is_equipped equipped Shield = false)) ->
  make_anim equipped true DRAW_ATTACK_ORDER d
  = make_anim equipped false DRAW_ORDER d.
Proof.
  intros Hmarkers Hd.
  assert (Horder : DRAW_ATTACK_ORDER d = DRAW_ORDER d)
    by (destruct Hd as [-> | [-> _]]; reflexivity).
  assert (Hparts : forall frame part,
            is_equipped equipped part = true ->
            get_part equipped true d part frame
            = get_part equipped false d part frame).
  { intros frame part Heq. unfold get_part.
    destruct (equipped part) as [item|] eqn:Hitem;
      [|unfold is_equipped in Heq; rewrite Hitem in Heq; discriminate].
    assert (Hplain : Slot_eqb part Armleg && Direction_eqb d Right
                     && is_equipped equipped Shield = false).
    { destruct Hd as [-> | [-> [Harm | Hshield]]].
      - now rewrite andb_false_r.
      - destruct part; try reflexivity.
        unfold is_equipped in Harm. now rewrite Hitem in Harm.
      - rewrite Hshield. now rewrite andb_false_r. }
    unfold get_attack_part_image, get_part_image, item_of, piece_image.
    rewrite Hitem, Hplain. cbn [bind].
    rewrite (Hmarkers part item Hitem).
    destruct (images_get (Facing d) (images item)) as [to_blit|e];
      [|reflexivity].
    cbn [bind]. now destruct (frame_of to_blit frame). }
  unfold make_anim. rewrite Horder.
  now rewrite !blit_parts_modes by (intros; now apply Hparts).
Qed.

End Compositing.

(** * Further properties of the state machine *)

Section StateMachine.

Context `{Pygame} {Others : Type}.

Implicit Types (p : Player (Others := Others)) (d : Direction).

(** ** Damage *)

(** X7.  After [got_hit] the player is in the hit state, whatever it
    was before, and a further hit of any amount changes nothing. *)
Theorem got_hit_absorbs p (first second : Z) :
  hit_state (got_hit first p) = true
  /\ got_hit second (got_hit first p) = got_hit first p.
Proof.
  assert (Hhit : hit_state (got_hit first p) = true).
  { unfold got_hit. destruct (hit_state p) eqn:Hp; simpl; auto. }
  split; [exact Hhit|].
  unfold got_hit at 1. now rewrite Hhit.
Qed.

(** X8.  A hit that lands never leaves the health above 0: damage the
    health covers leaves exactly 0, and greater damage leaves the
    negative difference.  A hit of a non-negative amount never raises
    the health. *)
Theorem got_hit_health p (enemy_damage : Z) :
  hit_state p = false ->
  health (got_hit enemy_damage p) <= 0
  /\ (enemy_damage <= health p -> health (got_hit enemy_damage p) = 0)
  /\ (health p <= enemy_damage ->
      health (got_hit enemy_damage p) = health p - enemy_damage)
  /\ (0 <= enemy_damage -> health (got_hit enemy_damage p) <= health p).
Proof.
  intros Hhit. unfold got_hit. rewrite Hhit. simpl. lia.
Qed.

(** ** State resolution *)

Lemma check_attack_keeps p p1 :
  check_attack p = Ok p1 ->
  hit_state p1 = hit_state p
  /\ all_animations p1 = all_animations p
  /\ direction p1 = direction p
  /\ direction_stack p1 = direction_stack p
  /\ health p1 = health p
  /\ controls p1 = controls p
  /\ equipped p1 = equipped p
  /\ image p1 = image p
  /\ others p1 = others p.
Proof.
  unfold check_attack.
  destruct (ActionState_eqb (action_state p) Attack).
  - destruct (item_of (equipped p) Weapon) as [w|e]; [|discriminate].
    simpl. destruct (attacking w); simpl; intros [= <-]; now repeat split.
  - intros [= <-]. now repeat split.
Qed.

Lemma check_hit_frame p :
  direction (check_hit p) = direction p
  /\ direction_stack (check_hit p) = direction_stack p
  /\ health (check_hit p) = health p
  /\ controls (check_hit p) = controls p
  /\ equipped (check_hit p) = equipped p
  /\ image (check_hit p) = image p
  /\ others (check_hit p) = others p
  /\ action_state (check_hit p) = action_state p.
Proof.
  unfold check_hit. destruct (hit_state p); [|now repeat split].
  destruct (done _); now repeat split.
Qed.

(** X9.  For a player in the hit state, [check_states] looks at the
    hit-flash clip of the action state it resolves and of the current
    direction.  The hit state lasts exactly as long as that clip is
    not done: a clip that is done is reset in the table, every other
    clip staying as it was, and the hit state ends; a clip that is not
    done leaves the table alone.  Either way the redraw flag is
    set. *)
Theorem hit_state_lasts_with_clip p p' :
  check_states p = Ok p' ->
  hit_state p = true ->
  let clip :=
    anim_at (all_animations p) true (action_state p') (direction p) in
  hit_state p' = negb (done clip)
  /\ redraw p' = true
  /\ (done clip = true ->
      anim_at (all_animations p') true (action_state p') (direction p)
      = Anim_reset clip
      /\ forall hit action d,
           (hit, action, d) <> (true, action_state p', direction p) ->
           anim_at (all_animations p') hit action d
           = anim_at (all_animations p) hit action d)
  /\ (done clip = false -> all_animations p' = all_animations p).
Proof.
  unfold check_states.
  destruct (check_attack p) as [p1|e] eqn:Hattack; [|discriminate].
  simpl. intros [= <-] Hhit.
  destruct (check_attack_keeps p p1 Hattack)
    as (Hh & Hall & Hd & _).
  destruct (check_hit_frame p1) as (_ & _ & _ & _ & _ & _ & _ & Ha).
  rewrite Ha. clear Ha.
  unfold check_hit. rewrite Hh, Hhit, Hall, Hd.
  destruct (done (anim_at (all_animations p) true (action_state p1)
                    (direction p))) eqn:Hdone; cbn -[anim_put anim_at].
  - split; [reflexivity|]. split; [reflexivity|]. split.
    + intros _. split; [apply anim_at_put_same|].
      intros hit action d Hne. now apply anim_at_put_other.
    + discriminate.
  - rewrite Hh, Hall. split; [now rewrite Hhit|].
    split; [reflexivity|]. split; [discriminate | reflexivity].
Qed.

(** X10.  [check_states] raises only for a player in the attack state
    with no weapon equipped, and then [AttributeError]; and it returns
    the player as it was when there is nothing to resolve: out of the
    hit state, and either not attacking or with a weapon still in its
    attack. *)
Theorem check_states_raises_or_rests p :
  (forall e,
     check_states p = Raise e
     <-> e = AttributeError
         /\ action_state p = Attack /\ equipped p Weapon = None)
  /\ (hit_state p = false ->
      action_state p = Normal
      \/ (exists w, equipped p Weapon = Some w /\ attacking w = true) ->
      check_states p = Ok p).
Proof.
  split.
  - intros e. unfold check_states, check_attack, item_of.
    destruct (action_state p); simpl.
    + split; [discriminate | intros (_ & Hact & _); discriminate].
    + destruct (equipped p Weapon) as [w|]; simpl.
      * destruct (attacking w); simpl;
          (split; [discriminate | intros (_ & _ & Hw); discriminate]).
      * split; [intros [= <-]; auto | intros (-> & _); reflexivity].
  - intros Hhit Hrest. unfold check_states, check_attack, item_of.
    assert (Hidle : forall q : Player (Others := Others),
              hit_state q = false -> check_hit q = q).
    { intros q Hq. unfold check_hit. now rewrite Hq. }
    destruct (action_state p) eqn:Hact; simpl.
    + now rewrite Hidle.
    + destruct Hrest as [Hnormal | (w & Hw & Hbusy)]; [discriminate|].
      rewrite Hw. simpl. rewrite Hbusy. simpl. now rewrite Hidle.
Qed.

(** X11.  [check_states] resolves states and nothing else: health,
    direction, direction stack, image, controls, equipment and the
    other attributes come out as they went in. *)
Theorem check_states_frame p p' :
  check_states p = Ok p' ->
  health p' = health p
  /\ direction p' = direction p
  /\ direction_stack p' = direction_stack p
  /\ image p' = image p
  /\ controls p' = controls p
  /\ equipped p' = equipped p
  /\ others p' = others p.
Proof.
  unfold check_states.
  destruct (check_attack p) as [p1|e] eqn:Hattack; [|discriminate].
  simpl. intros [= <-].
  destruct (check_attack_keeps p p1 Hattack)
    as (_ & _ & Hd & Hs & Hhe & Hc & He & Hi & Ho).
  destruct (check_hit_frame p1) as (Hd' & Hs' & Hhe' & Hc' & He' & Hi' & Ho' & _).
  repeat split; congruence.
Qed.

(** X12.  Once the hit-flash clip is done, the tick's [check_states]
    ends the hit state and a hit lands again; while the clip is not
    done, a hit on the player [check_states] returns still has no
    effect. *)
Theorem hit_lands_after_clip p p' (enemy_damage : Z) :
  check_states p = Ok p' ->
  hit_state p = true ->
  let clip :=
    anim_at (all_animations p) true (action_state p') (direction p) in
  (done clip = true ->
   health (got_hit enemy_damage p') = Z.min (health p - enemy_damage) 0
   /\ hit_state (got_hit enemy_damage p') = true)
  /\ (done clip = false -> got_hit enemy_damage p' = p').
Proof.
  unfold check_states.
  destruct (check_attack p) as [p1|e] eqn:Hattack; [|discriminate].
  simpl. intros [= <-] Hhit.
  destruct (check_attack_keeps p p1 Hattack)
    as (Hh & Hall & Hd & _ & Hhealth & _).
  destruct (check_hit_frame p1) as (_ & _ & Hhealth' & _ & _ & _ & _ & Ha).
  rewrite Ha. clear Ha.
  unfold got_hit. rewrite Hhealth', Hhealth.
  unfold check_hit. rewrite Hh, Hhit, Hall, Hd.
  split; intros Hdone; rewrite Hdone; cbn -[anim_put anim_at].
  - now split.
  - rewrite Hh, Hhit. reflexivity.
Qed.

(** ** Attacking *)

Variable start_attack : Item -> Item * bool.

(** X13.  [attack] leaves a player that is already attacking as it is,
    without consulting the weapon.  Otherwise it raises
    [AttributeError] when no weapon is equipped, and with a weapon it
    asks it to start: the weapon takes the state the call leaves it
    in, and the player enters the attack state with the redraw flag
    set exactly when the weapon accepts.  Nothing else changes. *)
Theorem attack_cases p :
  (action_state p = Attack -> attack start_attack p = Ok p)
  /\ (action_state p = Normal ->
      equipped p Weapon = None ->
      attack start_attack p = Raise AttributeError)
  /\ (forall w,
        action_state p = Normal ->
        equipped p Weapon = Some w ->
        exists p',
          attack start_attack p = Ok p'
          /\ action_state p'
             = (if snd (start_attack w) then Attack else Normal)
          /\ redraw p' = (snd (start_attack w) || redraw p)
          /\ equipped p' Weapon = Some (fst (start_attack w))
          /\ (forall part, part <> Weapon ->
                equipped p' part = equipped p part)
          /\ hit_state p' = hit_state p
          /\ health p' = health p
          /\ direction p' = direction p
          /\ direction_stack p' = direction_stack p
          /\ all_animations p' = all_animations p
          /\ image p' = image p
          /\ controls p' = controls p
          /\ others p' = others p).
Proof.
  unfold attack, item_of. split; [|split].
  - now intros ->.
  - now intros -> ->.
  - intros w Hact Hw. rewrite Hact, Hw. cbn [bind ActionState_eqb negb].
    destruct (start_attack w) as [w' ready]. cbn [fst snd].
    assert (Hothers : forall part, part <> Weapon ->
              equip Weapon w' (equipped p) part = equipped p part).
    { intros part Hne. unfold equip. destruct part; try reflexivity.
      now contradiction Hne. }
    destruct ready; eexists; (split; [reflexivity|]); simpl;
      rewrite ?Hact; repeat split; assumption.
Qed.

(** X14.  An attack the weapon accepts outlasts the next
    [check_states] exactly when the weapon has turned its attacking
    flag on: otherwise the player is back in the normal state at
    once.  The redraw flag is set either way. *)
Theorem accepted_attack_needs_flag p (w : Item) :
  action_state p = Normal ->
  equipped p Weapon = Some w ->
  snd (start_attack w) = true ->
  exists p1 p2,
    attack start_attack p = Ok p1
    /\ check_states p1 = Ok p2
    /\ action_state p2
       = (if attacking (fst (start_attack w)) then Attack else Normal)
    /\ redraw p2 = true.
Proof.
  intros Hact Hw Hready. unfold attack, item_of.
  rewrite Hact, Hw. cbn [bind ActionState_eqb negb].
  destruct (start_attack w) as [w' ready]. cbn [fst snd] in *. subst ready.
  destruct (attacking w') eqn:Hflag; do 2 eexists;
    (split; [reflexivity|]);
    unfold check_states, check_attack, item_of; simpl; rewrite Hflag; simpl;
    (split; [reflexivity|]);
    match goal with |- context [check_hit ?q] =>
      destruct (check_hit_keeps q) as [Ha Hr]
    end;
    rewrite Ha; (split; [reflexivity | now apply Hr]).
Qed.

(** ** The direction stack *)

Lemma contains_without (d d' : Direction) (l : list Direction) :
  contains d (without d' l)
  = if Direction_eqb d d' then false else contains d l.
Proof.
  destruct (Direction_eqb_spec d d') as [->|Hne].
  - apply contains_false, without_not_In.
  - unfold contains, without. induction l as [|y l IH]; simpl;
      [reflexivity|].
    destruct (Direction_eqb_spec d' y) as [->|Hne']; simpl.
    + rewrite IH. now rewrite Direction_eqb_neq.
    + now rewrite IH.
Qed.

Lemma contains_snoc (d d' : Direction) (l : list Direction) :
  contains d (l ++ [d']) = contains d l || Direction_eqb d d'.
Proof.
  unfold contains. rewrite existsb_app. simpl. now rewrite orb_false_r.
Qed.

Lemma handle_controls p (e : KeyEvent) :
  controls (handle p e) = controls p.
Proof.
  destruct e; simpl;
    [apply add_direction_controls | apply pop_direction_controls].
Qed.

Lemma handle_NoDup p (e : KeyEvent) :
  NoDup (direction_stack p) -> NoDup (direction_stack (handle p e)).
Proof.
  destruct e; simpl;
    [apply add_direction_NoDup | apply pop_direction_NoDup].
Qed.

Lemma handle_contains p (e : KeyEvent) d :
  NoDup (direction_stack p) ->
  contains d (direction_stack (handle p e))
  = match e with
    | Press key =>
        if binds (controls p) key d then true
        else contains d (direction_stack p)
    | Release key =>
        if binds (controls p) key d then false
        else contains d (direction_stack p)
    end.
Proof.
  intros Hnd. unfold binds. destruct e as [key|key]; simpl.
  - destruct (dict_find Z.eqb key (controls p)) as [d'|] eqn:Hkey.
    + rewrite (add_direction_bound p key d') by assumption. simpl.
      rewrite contains_snoc, contains_without.
      now destruct (Direction_eqb d d'); rewrite ?orb_false_r.
    + unfold add_direction. now rewrite Hkey.
  - destruct (dict_find Z.eqb key (controls p)) as [d'|] eqn:Hkey.
    + rewrite (pop_direction_bound p key d') by assumption.
      apply contains_without.
    + unfold pop_direction. now rewrite Hkey.
Qed.

(** X15.  After any presses and releases, a direction is in the stack
    exactly when it is held: when the last event on a key bound to it
    was a press, or, with no such event, when it was in the stack
    before. *)
Theorem stack_holds_held (events : list KeyEvent) p d :
  NoDup (direction_stack p) ->
  In d (direction_stack (handle_all events p))
  <-> held_after (controls p) events d (contains d (direction_stack p))
      = true.
Proof.
  unfold handle_all, held_after. revert p.
  induction events as [|e events IH]; intros p Hnd; simpl.
  - symmetry. apply contains_In.
  - rewrite (IH (handle p e)) by now apply handle_NoDup.
    rewrite handle_controls, handle_contains by assumption.
    destruct e; reflexivity.
Qed.

Lemma direction_list_short (l : list Direction) :
  NoDup l -> (length l <= 4)%nat.
Proof.
  intros Hnd.
  apply (NoDup_incl_length Hnd (l' := [Front; Back; Left; Right])).
  intros x _. destruct x; simpl; auto.
Qed.

Lemma handle_bound p (e : KeyEvent) :
  (forall d, In d (direction_stack p) ->
     exists key, dict_find Z.eqb key (controls p) = Some d) ->
  forall d, In d (direction_stack (handle p e)) ->
    exists key, dict_find Z.eqb key (controls p) = Some d.
Proof.
  intros Hall d. destruct e as [key|key]; simpl.
  - unfold add_direction.
    destruct (dict_find Z.eqb key (controls p)) as [d'|] eqn:Hkey;
      [|apply Hall].
    simpl. rewrite in_app_iff. intros [Hin | [<- | []]]; [|eauto].
    apply Hall. destruct (contains d' (direction_stack p)); [|assumption].
    clear - Hin. induction (direction_stack p) as [|y l IH];
      [contradiction|].
    simpl in Hin. destruct (Direction_eqb d' y); [now right|].
    destruct Hin as [<- | Hin]; [now left | right; auto].
  - unfold pop_direction.
    destruct (dict_find Z.eqb key (controls p)) as [d'|] eqn:Hkey;
      [|apply Hall].
    destruct (contains d' (direction_stack p)); [|apply Hall].
    simpl. intros Hin. apply Hall.
    clear - Hin. induction (direction_stack p) as [|y l IH];
      [contradiction|].
    simpl in Hin. destruct (Direction_eqb d' y); [now right|].
    destruct Hin as [<- | Hin]; [now left | right; auto].
Qed.

(** X16.  From the empty stack, whatever keys are pressed and
    released, the stack never holds more than four directions, and
    holds only directions that a key of the controls is bound to. *)
Theorem stack_bounded p0 (events : list KeyEvent) :
  direction_stack p0 = [] ->
  let p := handle_all events p0 in
  (length (direction_stack p) <= 4)%nat
  /\ forall d, In d (direction_stack p) ->
       exists key, dict_find Z.eqb key (controls p0) = Some d.
Proof.
  intros Hempty p. split.
  - apply direction_list_short, handle_all_NoDup.
    rewrite Hempty. constructor.
  - unfold p, handle_all.
    assert (Hstart : forall d, In d (direction_stack p0) ->
              exists key, dict_find Z.eqb key (controls p0) = Some d)
      by (rewrite Hempty; intros d []).
    clear Hempty p. revert Hstart.
    generalize (eq_refl (controls p0)).
    generalize (controls p0) at 1 3 4 as c.
    intros c. revert p0.
    induction events as [|e events IH]; intros p0 Hc Hstart; simpl;
      [assumption|].
    apply IH.
    + now rewrite handle_controls.
    + rewrite Hc in *. intros d Hin.
      destruct (handle_bound p0 e Hstart d Hin) as [key Hkey]. eauto.
Qed.

Lemma set_direction_stack_twice p (s s' : list Direction) :
  set_direction_stack s' (set_direction_stack s p) = set_direction_stack s' p.
Proof. reflexivity. Qed.

Lemma set_direction_stack_same p :
  set_direction_stack (direction_stack p) p = p.
Proof. now destruct p. Qed.

(** X17.  On a stack without duplicates, pressing a key a second time
    changes nothing more, and so does releasing it a second time;
    pressing a key whose direction is not held and releasing it again
    gives back the player as it was. *)
Theorem press_release_round_trip p (key : Z) :
  NoDup (direction_stack p) ->
  add_direction key (add_direction key p) = add_direction key p
  /\ pop_direction key (pop_direction key p) = pop_direction key p
  /\ (forall d,
        dict_find Z.eqb key (controls p) = Some d ->
        ~ In d (direction_stack p) ->
        pop_direction key (add_direction key p) = p).
Proof.
  intros Hnd.
  destruct (dict_find Z.eqb key (controls p)) as [d|] eqn:Hkey.
  - assert (Hadd := add_direction_bound p key d Hkey Hnd).
    assert (Hnd' : NoDup (direction_stack (add_direction key p)))
      by now apply add_direction_NoDup.
    assert (Hkey' : dict_find Z.eqb key (controls (add_direction key p))
                    = Some d)
      by now rewrite add_direction_controls.
    assert (Hs : direction_stack (add_direction key p)
                 = without d (direction_stack p) ++ [d])
      by now rewrite Hadd.
    split; [|split].
    + rewrite (add_direction_bound _ key d Hkey' Hnd'), Hs.
      rewrite without_app, without_idem, without_same, app_nil_r.
      rewrite Hadd. reflexivity.
    + unfold pop_direction. rewrite Hkey.
      destruct (contains d (direction_stack p)) eqn:Hin.
      * simpl. rewrite Hkey. simpl.
        rewrite list_remove_without by assumption.
        assert (Hout : contains d (without d (direction_stack p)) = false)
          by apply contains_false, without_not_In.
        now rewrite Hout.
      * now rewrite Hkey, Hin.
    + intros d' Hd' Hnot. assert (d' = d) as -> by congruence.
      unfold pop_direction. rewrite Hkey', Hs.
      assert (Hin : contains d (without d (direction_stack p) ++ [d]) = true).
      { apply contains_In, in_or_app. right. now left. }
      rewrite Hin.
      rewrite list_remove_without by (rewrite <- Hs; exact Hnd').
      rewrite without_app, without_idem, without_same, app_nil_r.
      rewrite without_absent by assumption.
      rewrite Hadd, set_direction_stack_twice.
      apply set_direction_stack_same.
  - unfold add_direction, pop_direction. rewrite !Hkey.
    split; [reflexivity|]. split; [reflexivity|]. discriminate.
Qed.

(** ** Frame selection *)

Variable get_next_frame : Anim -> Z -> Anim * Surface.

Lemma adjust_frames_held (now : Z) p (below : list Direction) d :
  direction_stack p = below ++ [d] ->
  let clip := anim_at (all_animations p) (hit_state p) (action_state p) d in
  direction (adjust_frames get_next_frame now p) = d
  /\ image (adjust_frames get_next_frame now p)
     = Some (snd (get_next_frame clip now))
  /\ redraw (adjust_frames get_next_frame now p) = false.
Proof.
  intros Hstack clip. unfold adjust_frames.
  destruct (direction_stack p) as [|top rest] eqn:Hs.
  { destruct below; discriminate. }
  assert (Hlast : last rest top = d).
  { rewrite <- (last_cons top rest d), Hstack. apply last_last. }
  rewrite Hlast. cbn -[anim_at anim_put]. rewrite Hs. cbn -[anim_at anim_put].
  fold clip. destruct (get_next_frame clip now) as [clip' frame].
  now repeat split.
Qed.

(** X18.  After a bound key goes down, the next [adjust_frames] faces
    the direction of that key, whatever was held before, and shows the
    frame it gets from the clip of that direction. *)
Theorem press_faces (now : Z) p (key : Z) d :
  dict_find Z.eqb key (controls p) = Some d ->
  let p' := adjust_frames get_next_frame now (add_direction key p) in
  let clip := anim_at (all_animations p) (hit_state p) (action_state p) d in
  direction p' = d
  /\ image p' = Some (snd (get_next_frame clip now))
  /\ redraw p' = false.
Proof.
  intros Hkey p' clip. unfold p', add_direction. rewrite Hkey.
  apply (adjust_frames_held now
           (set_direction_stack
              ((if contains d (direction_stack p)
                then list_remove d (direction_stack p)
                else direction_stack p) ++ [d]) p)
           (if contains d (direction_stack p)
            then list_remove d (direction_stack p)
            else direction_stack p) d).
  reflexivity.
Qed.

Lemma adjust_frames_idle (now : Z) p :
  direction_stack p = [] ->
  hit_state p = false ->
  redraw p = false ->
  adjust_frames get_next_frame now p = p.
Proof.
  intros Hstack Hhit Hredraw. unfold adjust_frames.
  rewrite Hstack. cbv beta iota zeta. rewrite Hstack, Hhit, Hredraw.
  cbn [nonempty orb].
  destruct p; simpl in *; now subst.
Qed.

Lemma adjust_frames_still (now : Z) p :
  direction_stack p = [] ->
  hit_state p || redraw p = true ->
  let query :=
    get_next_frame
      (anim_at (all_animations p) (hit_state p) (action_state p)
         (direction p)) now in
  adjust_frames get_next_frame now p
  = set_redraw false
      (set_image (Some (snd query))
         (set_all_animations
            (anim_put (all_animations p) (hit_state p) (action_state p)
               (direction p) (fst query))
            p)).
Proof.
  intros Hstack Hcond query. unfold adjust_frames.
  rewrite Hstack. cbv beta iota zeta. rewrite Hstack.
  cbn [nonempty orb]. rewrite Hcond. fold query. now destruct query.
Qed.

(** X19.  A player [Player.__init__] has built holds no direction, is
    in the normal state and not hit, with health 28, no image and the
    redraw flag set.  Its first [adjust_frames] therefore shows a frame
    of the composited clip of its starting direction although no key
    is held, and the next one, with still no key held, keeps that
    image and queries no clip. *)
Theorem fresh_player_first_frame (start : Direction) (equips : Equipped)
  (rest : Others) (p0 : Player) (now later : Z) :
  Player_init start equips rest = Ok p0 ->
  let clip := anim_at (all_animations p0) false Normal start in
  let p1 := adjust_frames get_next_frame now p0 in
  let p2 := adjust_frames get_next_frame later p1 in
  (direction_stack p0 = [] /\ action_state p0 = Normal
   /\ hit_state p0 = false /\ health p0 = 28 /\ image p0 = None
   /\ redraw p0 = true /\ controls p0 = set_controls
   /\ make_all_animations equips = Ok (all_animations p0))
  /\ image p1 = Some (snd (get_next_frame clip now))
  /\ direction p1 = start
  /\ image p2 = image p1
  /\ all_animations p2 = all_animations p1.
Proof.
  intros Hinit clip p1 p2. unfold Player_init in Hinit.
  destruct (make_all_animations equips) as [all|e]; [|discriminate].
  cbn [bind] in Hinit. injection Hinit as Hp0. subst p0.
  assert (H1 : p1
    = set_redraw false
        (set_image (Some (snd (get_next_frame clip now)))
           (set_all_animations
              (anim_put all false Normal start
                 (fst (get_next_frame clip now)))
              (mkPlayer start [] set_controls equips all None Normal false
                 true 28 rest))))
    by (apply adjust_frames_still; reflexivity).
  assert (H2 : p2 = p1).
  { unfold p2. apply adjust_frames_idle; rewrite H1; reflexivity. }
  rewrite H2. split; [now repeat split|].
  rewrite H1. now repeat split.
Qed.

End StateMachine.

(** * Properties of movement and of the tick *)

Section Moving.

Context `{Pygame} {Num Rect Rest : Type}.

Variable mul : Num -> Num -> Num.
Variable add : Num -> Num -> Num.
Variable DIRECT_DICT : Direction -> Num * Num.
Variable set_topleft : Num * Num -> Rect -> Rect.
Variable get_next_frame : Anim -> Z -> Anim * Surface.
Variable weapon_attack :
  Item -> Mover (Num := Num) (Rect := Rect) (Rest := Rest) -> Z ->
  Mover (Num := Num) (Rect := Rect) (Rest := Rest).

Implicit Types (p : Mover (Num := Num) (Rect := Rect) (Rest := Rest)).

Lemma move_geometry (dt : Num) p :
  let moved := move mul add DIRECT_DICT dt p in
  old_position (others moved) = exact_position (others p)
  /\ rect (others moved) = rect (others p)
  /\ speed (others moved) = speed (others p)
  /\ (direction_stack p = [] ->
      exact_position (others moved) = exact_position (others p))
  /\ (forall below d,
        direction_stack p = below ++ [d] ->
        exact_position (others moved)
        = (add (fst (exact_position (others p)))
             (mul (mul (speed (others p)) (fst (DIRECT_DICT d))) dt),
           add (snd (exact_position (others p)))
             (mul (mul (speed (others p)) (snd (DIRECT_DICT d))) dt))).
Proof.
  unfold move. destruct (direction_stack p) as [|top rest'] eqn:Hs; simpl.
  - repeat split; auto. intros below d Hb. destruct below; discriminate.
  - repeat split; auto; [discriminate|].
    intros below d Hb.
    assert (Hlast : last rest' top = d).
    { rewrite <- (last_cons top rest' d), Hb. apply last_last. }
    now rewrite Hlast.
Qed.

Lemma move_state (dt : Num) p :
  let moved := move mul add DIRECT_DICT dt p in
  action_state moved = action_state p
  /\ redraw moved = redraw p
  /\ hit_state moved = hit_state p
  /\ health moved = health p
  /\ direction moved = direction p
  /\ direction_stack moved = direction_stack p
  /\ image moved = image p
  /\ all_animations moved = all_animations p.
Proof.
  unfold move. destruct (direction_stack p) eqn:Hs; simpl;
    rewrite ?Hs; now repeat split.
Qed.

(** X20.  [move] keeps the position it starts from as the old
    position, and [collide_with_solid] right after it puts the player
    and its rectangle back there, whatever the step was.  With no
    direction held [move] does not change the position; with a
    direction held it adds the speed times the vector of the top of
    the stack times the time step to each coordinate. *)
Theorem collision_undoes_move (dt : Num) p :
  let moved := move mul add DIRECT_DICT dt p in
  let back := collide_with_solid set_topleft moved in
  old_position (others moved) = exact_position (others p)
  /\ exact_position (others back) = exact_position (others p)
  /\ old_position (others back) = exact_position (others p)
  /\ rect (others back)
     = set_topleft (exact_position (others p)) (rect (others p))
  /\ (direction_stack p = [] ->
      exact_position (others moved) = exact_position (others p))
  /\ (forall below d,
        direction_stack p = below ++ [d] ->
        exact_position (others moved)
        = (add (fst (exact_position (others p)))
             (mul (mul (speed (others p)) (fst (DIRECT_DICT d))) dt),
           add (snd (exact_position (others p)))
             (mul (mul (speed (others p)) (snd (DIRECT_DICT d))) dt))).
Proof.
  intros moved back.
  destruct (move_geometry dt p) as (Hold & Hrect & _ & Hstill & Hstep).
  fold moved in Hold, Hrect, Hstill, Hstep.
  unfold back, collide_with_solid. simpl.
  rewrite Hold, Hrect. now repeat split.
Qed.

Lemma adjust_frames_keeps (now : Z) p :
  action_state (adjust_frames get_next_frame now p) = action_state p
  /\ equipped (adjust_frames get_next_frame now p) = equipped p
  /\ others (adjust_frames get_next_frame now p) = others p
  /\ direction_stack (adjust_frames get_next_frame now p)
     = direction_stack p
  /\ redraw (adjust_frames get_next_frame now p) = false.
Proof.
  unfold adjust_frames.
  destruct (direction_stack p) as [|top below] eqn:Hs;
    cbv beta iota zeta; cbn [direction_stack set_direction]; rewrite ?Hs;
    destruct (_ || _ || _); try destruct (get_next_frame _ _);
    simpl; rewrite ?Hs; now repeat split.
Qed.

Lemma check_states_armed p p' :
  check_states p = Ok p' ->
  action_state p' = Attack ->
  exists w, equipped p' Weapon = Some w.
Proof.
  unfold check_states, check_attack, item_of.
  destruct (action_state p) eqn:Hact; simpl.
  - intros [= <-]. destruct (check_hit_keeps p) as [Ha _].
    rewrite Ha, Hact. discriminate.
  - destruct (equipped p Weapon) as [w|] eqn:Hw; [|discriminate]. simpl.
    destruct (attacking w); simpl; intros [= <-] Hstill.
    + destruct (check_hit_frame p) as (_ & _ & _ & _ & He & _).
      rewrite He. eauto.
    + destruct (check_hit_keeps (set_redraw true (set_action_state Normal p)))
        as [Ha _].
      rewrite Ha in Hstill. discriminate.
Qed.

(** X21.  [update] raises only for a player in the attack state with
    no weapon equipped, and then [AttributeError]; and whenever it
    returns, the rectangle has been set from the exact position. *)
Theorem update_raises_or_commits (now : Z) (dt : Num) p :
  (forall e,
     update mul add DIRECT_DICT set_topleft get_next_frame weapon_attack
       now dt p = Raise e
     <-> e = AttributeError
         /\ action_state p = Attack /\ equipped p Weapon = None)
  /\ (forall p',
        update mul add DIRECT_DICT set_topleft get_next_frame weapon_attack
          now dt p = Ok p' ->
        exists r,
          rect (others p') = set_topleft (exact_position (others p')) r).
Proof.
  unfold update.
  destruct (check_states p) as [p1|e1] eqn:Hcheck; cbn [bind].
  - destruct (adjust_frames_keeps now p1) as (Ha & He & _).
    set (p2 := adjust_frames get_next_frame now p1) in *.
    assert (Hthird : exists p3,
      (if negb (ActionState_eqb (action_state p2) Attack)
       then Ok (move mul add DIRECT_DICT dt p2)
       else w <- item_of (equipped p2) Weapon ;; Ok (weapon_attack w p2 now))
      = Ok p3).
    { destruct (action_state p2) eqn:Hact2; cbn [ActionState_eqb negb];
        [eauto|].
      destruct (check_states_armed p p1 Hcheck (eq_sym Ha)) as [w Hw].
      unfold item_of. rewrite He, Hw. cbn [bind]. eauto. }
    destruct Hthird as [p3 ->]. cbn [bind]. split.
    + intros e. split; [discriminate|].
      intros (-> & Hact & Hw).
      assert (Hraise : check_states p = Raise AttributeError).
      { unfold check_states, check_attack, item_of.
        now rewrite Hact, Hw. }
      congruence.
    + intros p' [= <-]. unfold commit_position. simpl. eauto.
  - split; [|discriminate].
    intros e. unfold check_states, check_attack, item_of in Hcheck.
    destruct (action_state p) eqn:Hact; simpl in Hcheck; [discriminate|].
    destruct (equipped p Weapon) as [w|] eqn:Hw; simpl in Hcheck.
    + destruct (attacking w); discriminate.
    + injection Hcheck as <-. split.
      * intros [= <-]. auto.
      * intros (-> & _). reflexivity.
Qed.

(** X22.  A tick of a player that is not attacking, or whose weapon
    has just finished its attack, is a movement tick: [update] returns
    a player in the normal state with the redraw flag cleared, the
    position before the tick kept as the old position, the rectangle
    set from the new position, and the position unchanged when no
    direction is held.  The tick in which the attack ends already
    moves the player. *)
Theorem movement_tick (now : Z) (dt : Num) p :
  action_state p = Normal
  \/ (exists w, equipped p Weapon = Some w /\ attacking w = false) ->
  exists p',
    update mul add DIRECT_DICT set_topleft get_next_frame weapon_attack
      now dt p = Ok p'
    /\ action_state p' = Normal
    /\ redraw p' = false
    /\ old_position (others p') = exact_position (others p)
    /\ rect (others p')
       = set_topleft (exact_position (others p')) (rect (others p))
    /\ direction_stack p' = direction_stack p
    /\ (direction_stack p = [] ->
        exact_position (others p') = exact_position (others p)).
Proof.
  intros Hcase.
  assert (Hcheck : exists p1,
            check_states p = Ok p1
            /\ action_state p1 = Normal
            /\ others p1 = others p
            /\ direction_stack p1 = direction_stack p).
  { unfold check_states, check_attack, item_of.
    destruct (action_state p) eqn:Hact; simpl.
    - eexists. split; [reflexivity|].
      destruct (check_hit_frame p) as (_ & Hs & _ & _ & _ & _ & Ho & Ha).
      rewrite Ha, Ho, Hs. auto.
    - destruct Hcase as [Hn | (w & Hw & Hidle)]; [discriminate|].
      rewrite Hw. simpl. rewrite Hidle. simpl.
      eexists. split; [reflexivity|].
      destruct (check_hit_frame
                  (set_redraw true (set_action_state Normal p)))
        as (_ & Hs & _ & _ & _ & _ & Ho & Ha).
      rewrite Ha, Ho, Hs. auto. }
  destruct Hcheck as (p1 & Hp1 & Hact1 & Ho1 & Hs1).
  unfold update. rewrite Hp1. cbn [bind].
  destruct (adjust_frames_keeps now p1) as (Ha & _ & Ho & Hs & Hr).
  set (p2 := adjust_frames get_next_frame now p1) in *.
  rewrite Ha, Hact1. cbn [ActionState_eqb negb bind].
  destruct (move_geometry dt p2) as (Hold & Hrect & _ & Hstill & _).
  destruct (move_state dt p2) as (Hma & Hmr & _ & _ & _ & Hms & _).
  set (p3 := move mul add DIRECT_DICT dt p2) in *.
  eexists. split; [reflexivity|].
  unfold commit_position. simpl.
  rewrite Hma, Ha, Hact1, Hmr, Hr, Hold, Ho, Ho1, Hrect, Ho, Ho1.
  rewrite Hms, Hs, Hs1.
  repeat split.
  intros Hempty. rewrite Hstill by (rewrite Hs, Hs1; exact Hempty).
  now rewrite Ho, Ho1.
Qed.

End Moving.

(** * The further properties at work *)

(** With nothing equipped every frame is the bare surface. *)
Lemma nothing_equipped_composes_witness :
  make_images (H := one_pixel) nothing_equipped true DRAW_ATTACK_ORDER
  = Ok (let bare :=
          Anim_new [base; base] STANDARD_ANIMATION_FPS unbounded in
        mkDirTable bare bare bare bare).
Proof.
  apply (nothing_equipped_composes (H := one_pixel) nothing_equipped true
           DRAW_ATTACK_ORDER).
  reflexivity.
Defined.

(** The sample body has two images: index 2 is past the end, index -1
    is the last one. *)
Lemma sequence_index_witness :
  get_part_image (H := one_pixel) sample_equipped Front Body 2
  = Raise IndexError
  /\ exists s,
       nth_error [px 20 0 0; px 20 1 0] (Z.to_nat (2 + -1)) = Some s
       /\ get_part_image (H := one_pixel) sample_equipped Front Body (-1)
          = Ok s.
Proof.
  split.
  - apply (sequence_index (H := one_pixel) sample_equipped Body sample_body
             Front 2 [px 20 0 0; px 20 1 0] eq_refl eq_refl).
    left. simpl. lia.
  - apply (sequence_index (H := one_pixel) sample_equipped Body sample_body
             Front (-1) [px 20 0 0; px 20 1 0] eq_refl eq_refl).
    simpl. lia.
Defined.

(** The two orders for left. *)
Lemma draw_orders_cover_witness :
  DRAW_ATTACK_ORDER Left = DRAW_ORDER Left /\ In Shield (DRAW_ORDER Left).
Proof.
  destruct (draw_orders_cover Left) as (_ & _ & Hin & Hsame).
  split; [apply Hsame; now left | apply (Hin Shield)].
Defined.

(** The sample equipment composes, so its arms and legs resolve. *)
Lemma make_all_animations_succeeds_witness :
  (exists s,
     get_part_image (H := one_pixel) sample_equipped Right Armleg 1 = Ok s)
  /\ (exists r,
        get_attack_part_image (H := one_pixel) sample_equipped Right
          Armleg 1 = Ok r).
Proof.
  apply (proj1 (make_all_animations_succeeds (H := one_pixel)
                  sample_equipped)).
  - exists sample_animations. vm_compute. reflexivity.
  - reflexivity.
  - right. reflexivity.
Defined.

(** The hit-flash clip of the sample player attacking to the right. *)
Lemma strobing_from_standard_witness :
  anim_at (H := one_pixel) sample_animations true Attack Right
  = make_hit_anim (anim_at sample_animations false Attack Right).
Proof.
  apply (strobing_from_standard (H := one_pixel) sample_equipped
           sample_animations Attack Right).
  vm_compute. reflexivity.
Defined.

(** A head and a body look the same attacking to the left. *)
Lemma attack_composition_as_normal_witness :
  make_anim (H := one_pixel) plain_equipped true DRAW_ATTACK_ORDER Left
  = make_anim (H := one_pixel) plain_equipped false DRAW_ORDER Left.
Proof.
  apply (attack_composition_as_normal (H := one_pixel) plain_equipped Left).
  - intros part item Hitem.
    destruct part; simpl in Hitem; try discriminate;
      injection Hitem as <-; reflexivity.
  - left. reflexivity.
Defined.

(** Health 28 and damage 5 leave health 0. *)
Lemma got_hit_health_witness :
  health (got_hit 5 sample_player) <= 0
  /\ health (got_hit 5 sample_player) = 0.
Proof.
  destruct (got_hit_health (H := one_pixel) sample_player 5 eq_refl)
    as (Hle & Hzero & _).
  split; [exact Hle|]. apply Hzero. simpl. lia.
Defined.

(** The sample player, hit: its hit-flash clip has not played, so it
    stays hit. *)
Lemma hit_state_lasts_with_clip_witness :
  exists p',
    check_states (H := one_pixel) (got_hit 5 sample_player) = Ok p'
    /\ hit_state p' = true
    /\ redraw p' = true.
Proof.
  exists (check_hit (got_hit 5 sample_player)).
  destruct (hit_state_lasts_with_clip (H := one_pixel)
              (got_hit 5 sample_player)
              (check_hit (got_hit 5 sample_player)) eq_refl eq_refl)
    as (Hhit & Hredraw & _).
  split; [reflexivity|]. split; [exact Hhit | exact Hredraw].
Defined.

(** The fresh sample player has nothing to resolve; without a weapon
    and in the attack state it cannot be resolved. *)
Lemma check_states_raises_or_rests_witness :
  check_states (H := one_pixel) sample_player = Ok sample_player
  /\ check_states (H := one_pixel)
       (set_action_state Attack (set_equipped nothing_equipped sample_player))
     = Raise AttributeError.
Proof.
  split.
  - apply (check_states_raises_or_rests (H := one_pixel) sample_player);
      [reflexivity | left; reflexivity].
  - apply (check_states_raises_or_rests (H := one_pixel)
             (set_action_state Attack
                (set_equipped nothing_equipped sample_player))).
    repeat split.
Defined.

Lemma check_states_frame_witness :
  health (check_hit (H := one_pixel) (got_hit 5 sample_player)) = 0.
Proof.
  destruct (check_states_frame (H := one_pixel) (got_hit 5 sample_player)
              (check_hit (got_hit 5 sample_player)) eq_refl)
    as (Hhealth & _).
  exact Hhealth.
Defined.

(** While the clip has not played, a further hit has no effect. *)
Lemma hit_lands_after_clip_witness :
  got_hit 9 (check_hit (H := one_pixel) (got_hit 5 sample_player))
  = check_hit (got_hit 5 sample_player).
Proof.
  destruct (hit_lands_after_clip (H := one_pixel) (got_hit 5 sample_player)
              (check_hit (got_hit 5 sample_player)) 9 eq_refl eq_refl)
    as (_ & Hnot).
  apply Hnot. reflexivity.
Defined.

(** The sample weapon accepts the attack of the fresh player. *)
Lemma attack_cases_witness :
  exists p',
    attack (H := one_pixel) sample_start_attack sample_player = Ok p'
    /\ action_state p' = Attack
    /\ redraw p' = true.
Proof.
  destruct (attack_cases (H := one_pixel) sample_start_attack sample_player)
    as (_ & _ & Hstart).
  destruct (Hstart sample_weapon eq_refl eq_refl)
    as (p' & Hp' & Hact & Hredraw & _).
  exists p'. split; [exact Hp'|]. split; [exact Hact | exact Hredraw].
Defined.

(** The sample weapon turns its flag on, so the attack lasts. *)
Lemma accepted_attack_needs_flag_witness :
  exists p1 p2,
    attack (H := one_pixel) sample_start_attack sample_player = Ok p1
    /\ check_states p1 = Ok p2
    /\ action_state p2 = Attack
    /\ redraw p2 = true.
Proof.
  exact (accepted_attack_needs_flag (H := one_pixel) sample_start_attack
           sample_player sample_weapon eq_refl eq_refl eq_refl).
Defined.

(** Up and right pressed, up released: right is held, up is not. *)
Lemma stack_holds_held_witness :
  In Right
    (direction_stack
       (handle_all (H := one_pixel) [Press 273; Press 275; Release 273]
          sample_player))
  /\ ~ In Back
       (direction_stack
          (handle_all (H := one_pixel) [Press 273; Press 275; Release 273]
             sample_player)).
Proof.
  assert (Hnd : NoDup (direction_stack sample_player)) by constructor.
  split.
  - apply (stack_holds_held (H := one_pixel)
             [Press 273; Press 275; Release 273] sample_player Right Hnd).
    reflexivity.
  - intros Hin.
    apply (stack_holds_held (H := one_pixel)
             [Press 273; Press 275; Release 273] sample_player Back Hnd)
      in Hin.
    discriminate Hin.
Defined.

Lemma stack_bounded_witness :
  (length
     (direction_stack
        (handle_all (H := one_pixel)
           [Press 273; Press 274; Press 275; Press 276; Press 273]
           sample_player)) <= 4)%nat.
Proof.
  exact (proj1 (stack_bounded (H := one_pixel) sample_player
                  [Press 273; Press 274; Press 275; Press 276; Press 273]
                  eq_refl)).
Defined.

(** Pressing up and releasing it gives the fresh player back. *)
Lemma press_release_round_trip_witness :
  pop_direction (H := one_pixel) 273 (add_direction 273 sample_player)
  = sample_player.
Proof.
  assert (Hnd : NoDup (direction_stack sample_player)) by constructor.
  destruct (press_release_round_trip (H := one_pixel) sample_player 273 Hnd)
    as (_ & _ & Hback).
  apply (Hback Back eq_refl). intros [].
Defined.

(** Pressing right turns the player, who starts facing back, to the
    right. *)
Lemma press_faces_witness :
  direction
    (adjust_frames (H := one_pixel) sample_get_next_frame 100
       (add_direction 275 sample_player))
  = Right.
Proof.
  exact (proj1 (press_faces (H := one_pixel) sample_get_next_frame 100
                  sample_player 275 Right eq_refl)).
Defined.

(** The first two frame selections of the sample player. *)
Lemma fresh_player_first_frame_witness :
  image
    (adjust_frames (H := one_pixel) sample_get_next_frame 200
       (adjust_frames sample_get_next_frame 100 sample_player))
  = image (adjust_frames (H := one_pixel) sample_get_next_frame 100
             sample_player).
Proof.
  assert (Hinit :
    Player_init (H := one_pixel) Back sample_equipped tt = Ok sample_player)
    by (vm_compute; reflexivity).
  destruct (fresh_player_first_frame (H := one_pixel) sample_get_next_frame
              Back sample_equipped tt sample_player 100 200 Hinit)
    as (_ & _ & _ & Hkeep & _).
  exact Hkeep.
Defined.

(** The sample mover, at (100, 100) with speed 3, holds right for a
    step of 2 and is at (106, 100); a collision puts it back. *)
Lemma collision_undoes_move_witness :
  let held := add_direction (H := one_pixel) 275 sample_mover in
  let moved := move Z.mul Z.add sample_vectors 2 held in
  exact_position (others moved) = (106, 100)
  /\ exact_position (others (collide_with_solid sample_set_topleft moved))
     = (100, 100).
Proof.
  intros held moved.
  destruct (collision_undoes_move (H := one_pixel) Z.mul Z.add
              sample_vectors sample_set_topleft 2 held)
    as (_ & Hback & _ & _ & _ & Hstep).
  split; [exact (Hstep [] Right eq_refl) | exact Hback].
Defined.

(** The rectangle of the sample mover after a tick. *)
Lemma update_raises_or_commits_witness :
  exists r,
    rect (others
            (commit_position sample_set_topleft
               (move Z.mul Z.add sample_vectors 2
                  (adjust_frames sample_get_next_frame 100 sample_mover))))
    = sample_set_topleft
        (exact_position
           (others
              (commit_position sample_set_topleft
                 (move Z.mul Z.add sample_vectors 2
                    (adjust_frames (H := one_pixel) sample_get_next_frame
                       100 sample_mover)))))
        r.
Proof.
  apply (proj2 (update_raises_or_commits (H := one_pixel) Z.mul Z.add
                  sample_vectors sample_set_topleft sample_get_next_frame
                  sample_weapon_attack 100 2 sample_mover)).
  reflexivity.
Defined.

(** A tick of the sample mover at rest. *)
Lemma movement_tick_witness :
  exists p',
    update (H := one_pixel) Z.mul Z.add sample_vectors sample_set_topleft
      sample_get_next_frame sample_weapon_attack 100 2 sample_mover = Ok p'
    /\ redraw p' = false
    /\ exact_position (others p') = (100, 100).
Proof.
  destruct (movement_tick (H := one_pixel) Z.mul Z.add sample_vectors
              sample_set_topleft sample_get_next_frame sample_weapon_attack
              100 2 sample_mover (or_introl eq_refl))
    as (p' & Hp' & _ & Hredraw & _ & _ & _ & Hstill).
  exists p'. split; [exact Hp'|]. split; [exact Hredraw|].
  exact (Hstill eq_refl).
Defined.
